(** * bindAndCopyWeight: bind a mesh to another mesh's joints and copy the
      skin weights through UV space

    A shallow embedding of [python/dcc/maya/bindAndCopyWeight.py].

    The script owns no data of its own: everything it does is a call into the
    host application's command module ([maya.cmds]).  The embedding therefore
    has three layers:

    - the host interface: the commands the script issues, with the arguments
      it passes, and the type of what each one answers;
    - a small program monad: a Python function is a finite tree of host calls
      ([Call]), ending in a returned value ([Ret]) or a raised exception
      ([Throw]); a host is a state machine answering the calls, and [run]
      executes a program against a host, recording the commands issued;
    - the four functions of the module, written line by line in that monad. *)

From Stdlib Require Import String Ascii List Bool Arith ZArith Lia Floats.
From Stdlib Require Import Sorted.
Import ListNotations.
Open Scope string_scope.
Open Scope list_scope.

(** ** Python values *)

(** The script's variables hold [None], a string, or a list of strings; the
    variable [name] of [getSkinCluster], for one, is first a string and then a
    list. *)
Inductive pyval : Type :=
| PNone
| PStr (s : string)
| PList (l : list string).

(** Python truth value: [None], [''] and [[]] are false. *)
Definition truthy (v : pyval) : bool :=
  match v with
  | PNone => false
  | PStr s => negb (s =? "")
  | PList l => negb (match l with [] => true | _ => false end)
  end.

Definition nonempty {A} (l : list A) : bool :=
  match l with [] => false | _ :: _ => true end.

(** [x or []] for a host answer that is a list or [None]. *)
Definition or_empty (r : option (list string)) : list string :=
  match r with Some l => l | None => [] end.

(** [r == s] for a host answer that is a string or [None]. *)
Definition py_eq (r : option string) (s : string) : bool :=
  match r with Some x => x =? s | None => false end.

(** [isinstance(v, list)]. *)
Definition is_list (v : pyval) : bool :=
  match v with PList _ => true | _ => false end.

(** [s in l] for a list of strings. *)
Definition py_in (s : string) (l : list string) : bool :=
  existsb (String.eqb s) l.

(** Iterating a Python string yields its characters, each a string of length
    one; iterating a list yields its elements. *)
Fixpoint chars (s : string) : list string :=
  match s with
  | EmptyString => []
  | String c rest => String c EmptyString :: chars rest
  end.

Definition py_iter (v : pyval) : list string :=
  match v with
  | PNone => []
  | PStr s => chars s
  | PList l => l
  end.

(** ** The host interface *)

(** Keyword arguments of the bind call; the four constant ones are written
    out where the call is made. *)
Record bind_kwargs : Type := mkBindKwargs {
  kw_dropoffRate : float;
  kw_removeUnusedInfluence : bool;
  kw_maximumInfluences : Z;
  kw_bindMethod : Z;
  kw_toSelectedBones : bool;
  kw_toSkeletonAndTransforms : bool
}.

(** Keyword arguments of the weight-copy call. *)
Record copy_kwargs : Type := mkCopyKwargs {
  kw_sourceSkin : pyval;
  kw_destinationSkin : pyval;
  kw_noMirror : bool;
  kw_surfaceAssociation : string;
  kw_uvSpace : list pyval;
  kw_influenceAssociation : list string
}.

(** The host commands, one constructor per call site shape. *)
Inductive cmd : Type :=
| Ls                                     (* cmds.ls(selection=True, long=True) *)
| NodeType (name : string)               (* cmds.nodeType(name) *)
| ListRelatives (name : string)          (* cmds.listRelatives(name, shapes=True, fullPath=True) *)
| ListConnections (o : string)           (* cmds.listConnections(o, type='skinCluster', ...) *)
| SkinClusterQuery (sc : pyval)          (* cmds.skinCluster(sc, query=True, influence=True) *)
| PolyUVSet (name : pyval)               (* cmds.polyUVSet(name, query=True, allUVSets=True) *)
| Error (msg : string)                   (* cmds.error(msg) *)
| Warning (msg : string)                 (* cmds.warning(msg) *)
| SkinClusterUnbind (obj : string)       (* cmds.skinCluster(obj, edit=True, unbind=True) *)
| SkinClusterBind (objects : list string) (kw : bind_kwargs)
                                         (* cmds.skinCluster(objects, **kwargs) *)
| CopySkinWeights (kw : copy_kwargs)     (* cmds.copySkinWeights(...) *)
| Select (objects : list string).        (* cmds.select(objects, r=True) *)

(** What each command answers when it returns.  The queries answer a list or
    [None], which is why the script writes [... or []] after each of them. *)
Definition resp (c : cmd) : Type :=
  match c with
  | Ls => option (list string)
  | NodeType _ => option string
  | ListRelatives _ => option (list string)
  | ListConnections _ => option (list string)
  | SkinClusterQuery _ => option (list string)
  | PolyUVSet _ => option (list string)
  | Error _ | Warning _ => unit
  | SkinClusterUnbind _ | SkinClusterBind _ _ => unit
  | CopySkinWeights _ => unit
  | Select _ => unit
  end.

(** Exceptions: the one Python itself raises in this script, and whatever a
    host command raises. *)
Inductive exn : Type :=
| IndexError
| HostError (msg : string).

(** A host is a state machine: a command, issued in a state, leaves a state
    and either returns an answer or raises. *)
Record host : Type := mkHost {
  world : Type;
  exec : forall c : cmd, world -> world * (exn + resp c)
}.

(** ** Programs *)

Inductive prog (A : Type) : Type :=
| Ret (a : A)
| Throw (e : exn)
| Call (c : cmd) (k : resp c -> prog A).

Arguments Ret {A} a.
Arguments Throw {A} e.
Arguments Call {A} c k.

Fixpoint bind {A B} (p : prog A) (f : A -> prog B) : prog B :=
  match p with
  | Ret a => f a
  | Throw e => Throw e
  | Call c k => Call c (fun v => bind (k v) f)
  end.

Definition call (c : cmd) : prog (resp c) := Call c Ret.

Notation "x <- p ;; q" := (bind p (fun x => q))
  (at level 61, p at next level, right associativity).
Notation "p ;; q" := (bind p (fun _ => q))
  (at level 61, right associativity).

(** How a run ends. *)
Inductive outcome (A : Type) : Type :=
| Returned (a : A)
| Raised (e : exn).

Arguments Returned {A} a.
Arguments Raised {A} e.

(** The result of a run: the commands issued, in order (a command that raised
    is the last one), the host state left behind, and the outcome. *)
Definition result (h : host) (A : Type) : Type :=
  (list cmd * world h * outcome A)%type.

Fixpoint run (h : host) {A} (p : prog A) (w : world h) : result h A :=
  match p with
  | Ret a => ([], w, Returned a)
  | Throw e => ([], w, Raised e)
  | Call c k =>
      match exec h c w with
      | (w1, inl e) => ([c], w1, Raised e)
      | (w1, inr v) =>
          match run h (k v) w1 with
          | (t, w2, o) => (c :: t, w2, o)
          end
      end
  end.

Definition trace_of {h A} (r : result h A) : list cmd := fst (fst r).
Definition world_of {h A} (r : result h A) : world h := snd (fst r).
Definition outcome_of {h A} (r : result h A) : outcome A := snd r.

(** [l[i]] for [0 <= i]: raises [IndexError] past the end of the list. *)
Definition index (l : list string) (i : nat) : prog string :=
  match nth_error l i with
  | Some x => Ret x
  | None => Throw IndexError
  end.

(** [v[0]] for a value known to be a list. *)
Definition first_of (v : pyval) : prog string := index (py_iter v) 0.

(** Early [return]: inside a function body a statement either falls through
    to the next one with a value ([Next]) or returns from the function
    ([Return_]; every [return] of [main] returns [None]). *)
Inductive flow (A : Type) : Type :=
| Next (a : A)
| Return_.

Arguments Next {A} a.
Arguments Return_ {A}.

Definition bindf {A B} (p : prog (flow A)) (f : A -> prog (flow B))
  : prog (flow B) :=
  bind p (fun r => match r with Next a => f a | Return_ => Ret Return_ end).

Definition next {A} (a : A) : prog (flow A) := Ret (Next a).
Definition return_ {A} : prog (flow A) := Ret Return_.
Definition lift {A} (p : prog A) : prog (flow A) := bind p next.

(** A function body run to its end, or to its first [return]. *)
Definition body (p : prog (flow unit)) : prog unit := bind p (fun _ => Ret tt).

Notation "x <~ p ;; q" := (bindf p (fun x => q))
  (at level 61, p at next level, right associativity).

(** ** The module *)

(** [getSkinCluster], lines 8-47. *)

(** The [for] loop of lines 30-40: [results] is reassigned at every
    iteration, and the loop is left at the first non-empty answer. *)
Fixpoint find_connections (names : list string) (results : list string)
  : prog (list string) :=
  match names with
  | [] => Ret results
  | o :: rest =>
      r <- call (ListConnections o) ;;
      let results := or_empty r in
      if nonempty results then Ret results
      else find_connections rest results
  end.

Definition getSkinCluster (name : string) : prog pyval :=
  let results : list string := [] in
  ty <- call (NodeType name) ;;
  name <- (if py_eq ty "transform"
           then r <- call (ListRelatives name) ;; Ret (PList (or_empty r))
           else Ret (PStr name)) ;;
  if negb (truthy name) then Ret (PList results)
  else
    results <- find_connections (py_iter name) results ;;
    if negb (nonempty results) then Ret PNone
    else
      (* [results] is a list here, so [isinstance(results, list)] holds *)
      r0 <- index results 0 ;;
      Ret (PStr r0).

(** [getInfluence], lines 50-75. *)
Definition getInfluence (name : string) : prog (list string) :=
  let results : list string := [] in
  if negb (truthy (PStr name)) then Ret results
  else
    sc <- getSkinCluster name ;;
    if negb (truthy sc) then Ret results
    else
      r <- call (SkinClusterQuery sc) ;;
      Ret (or_empty r).

(** [getUVSet], lines 78-105. *)
Definition getUVSet (name : string) : prog (list string) :=
  let result : list string := [] in
  if negb (truthy (PStr name)) then Ret result
  else
    ty <- call (NodeType name) ;;
    name <- (if py_eq ty "transform"
             then r <- call (ListRelatives name) ;; Ret (PList (or_empty r))
             else Ret (PStr name)) ;;
    r <- call (PolyUVSet name) ;;
    Ret (or_empty r).

(** [main], lines 108-202. *)

Record main_args : Type := mkArgs {
  dropoffRate : float;
  maximumInfluences : Z;
  userSourceUVSet : string;
  userDestinationUVSet : string
}.

(** The defaults of the signature. *)
Definition default_args : main_args :=
  {| dropoffRate := 4%float;
     maximumInfluences := 5%Z;
     userSourceUVSet := "";
     userDestinationUVSet := "" |}.

Definition nl : string := String (ascii_of_nat 10) EmptyString.

Definition selectMessage : string :=
  "Select two objects. The reference and target meshes.".

Definition sourceMessage : string :=
  "UV is not set on the source mesh." ++ nl
  ++ "The copy process has been cancelled.".

Definition destinationMessage : string :=
  "UV is not set on the destination mesh." ++ nl
  ++ "The copy process has been cancelled.".

(** The local variables of [main] that are live at line 164. *)
Record locals : Type := mkLocals {
  selection : list string;
  sourceObject : string;
  destinationObject : string;
  sourceSkin : pyval;
  destinationSkin : pyval;
  sourceUVSet : list string;
  destinationUVSet : list string
}.

(** Lines 149-156. *)
Definition bind_kwargs_of (a : main_args) : bind_kwargs :=
  {| kw_dropoffRate := dropoffRate a;
     kw_removeUnusedInfluence := false;
     kw_maximumInfluences := maximumInfluences a;
     kw_bindMethod := 0%Z;
     kw_toSelectedBones := true;
     kw_toSkeletonAndTransforms := false |}.

(** Lines 193-200. *)
Definition copy_kwargs_of (sourceSkin destinationSkin : pyval)
  (sourceUVSet destinationUVSet : pyval) : copy_kwargs :=
  {| kw_sourceSkin := sourceSkin;
     kw_destinationSkin := destinationSkin;
     kw_noMirror := true;
     kw_surfaceAssociation := "closestPoint";
     kw_uvSpace := [sourceUVSet; destinationUVSet];
     kw_influenceAssociation := ["label"; "oneToOne"; "closestJoint"] |}.

(** Lines 129-163 of [main]: the selection check, the unbind and the bind,
    and the four queries that feed the copy. *)
Definition main_bind (a : main_args) : prog (flow locals) :=
  r <- call Ls ;;
  let selection := or_empty r in
  if (List.length selection <? 2)%nat then
    call (Error selectMessage) ;;
    return_
  else
    sourceObject <- index selection 0 ;;
    destinationObject <- index selection 1 ;;
    (* Get each skin cluster. *)
    sourceInfluence <- getInfluence sourceObject ;;
    destinationInfluence <- getInfluence destinationObject ;;
    (* Remove the target skin cluster. *)
    (if nonempty destinationInfluence
     then call (SkinClusterUnbind destinationObject)
     else Ret tt) ;;
    (* Bind. *)
    let objects := destinationObject :: sourceInfluence in
    call (SkinClusterBind objects (bind_kwargs_of a)) ;;
    (* Copy weight. *)
    sourceSkin <- getSkinCluster sourceObject ;;
    destinationSkin <- getSkinCluster destinationObject ;;
    sourceUVSet <- getUVSet sourceObject ;;
    destinationUVSet <- getUVSet destinationObject ;;
    next {| selection := selection;
            sourceObject := sourceObject;
            destinationObject := destinationObject;
            sourceSkin := sourceSkin;
            destinationSkin := destinationSkin;
            sourceUVSet := sourceUVSet;
            destinationUVSet := destinationUVSet |}.

(** Lines 165-202 of [main]: the choice of the two UV sets, the weight copy
    and the reselection.  The test of line 187 reads [sourceUVSet], as the
    source has it. *)
Definition main_copy (a : main_args) (l : locals) : prog (flow unit) :=
  let userSource := userSourceUVSet a in
  let userDestination := userDestinationUVSet a in
  let sourceUVSet := PList (sourceUVSet l) in
  let destinationUVSet := PList (destinationUVSet l) in
  sourceUVSet <~
    (if truthy (PStr userSource) && py_in userSource (py_iter sourceUVSet)
     then next (PStr userSource)
     else if truthy (PStr userSource)
             && negb (py_in userSource (py_iter sourceUVSet))
     then call (Warning sourceMessage) ;; return_
     else next sourceUVSet) ;;
  _ <~ (if negb (truthy sourceUVSet)
        then call (Warning sourceMessage) ;; return_
        else next tt) ;;
  sourceUVSet <~
    (if is_list sourceUVSet
     then x <- first_of sourceUVSet ;; next (PStr x)
     else next sourceUVSet) ;;
  destinationUVSet <~
    (if truthy (PStr userDestination)
        && py_in userDestination (py_iter destinationUVSet)
     then next (PStr userDestination)
     else if truthy (PStr userDestination)
             && negb (py_in userDestination (py_iter destinationUVSet))
     then call (Warning destinationMessage) ;; return_
     else next destinationUVSet) ;;
  _ <~ (if negb (truthy sourceUVSet)
        then call (Warning destinationMessage) ;; return_
        else next tt) ;;
  destinationUVSet <~
    (if is_list destinationUVSet
     then x <- first_of destinationUVSet ;; next (PStr x)
     else next destinationUVSet) ;;
  lift (call (CopySkinWeights
                (copy_kwargs_of (sourceSkin l) (destinationSkin l)
                   sourceUVSet destinationUVSet))) ;;
  lift (call (Select (selection l))).

Definition main (a : main_args) : prog unit :=
  body (l <~ main_bind a ;; main_copy a l).

Arguments call : simpl never.
Arguments find_connections : simpl nomatch.
Arguments getSkinCluster : simpl never.
Arguments getInfluence : simpl never.
Arguments getUVSet : simpl never.

(** ** Classes of commands *)

(** The scene queries. *)
Definition is_query (c : cmd) : bool :=
  match c with
  | Ls | NodeType _ | ListRelatives _ | ListConnections _
  | SkinClusterQuery _ | PolyUVSet _ => true
  | _ => false
  end.

(** The host's messaging facility. *)
Definition is_message (c : cmd) : bool :=
  match c with Error _ | Warning _ => true | _ => false end.

Definition is_unbind (c : cmd) : bool :=
  match c with SkinClusterUnbind _ => true | _ => false end.

Definition is_bind (c : cmd) : bool :=
  match c with SkinClusterBind _ _ => true | _ => false end.

Definition is_copy (c : cmd) : bool :=
  match c with CopySkinWeights _ => true | _ => false end.

Definition is_select (c : cmd) : bool :=
  match c with Select _ => true | _ => false end.

(** The commands through which [main] changes the scene. *)
Definition is_edit (c : cmd) : bool :=
  is_unbind c || is_bind c || is_copy c || is_select c.

(** The unbind and bind commands of a trace, in order. *)
Definition skin_edits (t : list cmd) : list cmd :=
  filter (fun c => is_unbind c || is_bind c) t.

(** ** Running programs *)

(** Sequencing of results: what [bind] does to runs. *)
Definition and_then {h A B} (r : result h A)
  (f : A -> world h -> result h B) : result h B :=
  match r with
  | (t, w, Returned a) =>
      match f a w with (t2, w2, o) => (t ++ t2, w2, o) end
  | (t, w, Raised e) => (t, w, Raised e)
  end.

(** The state a sequence of commands leaves, whatever they answer. *)
Definition replay (h : host) (t : list cmd) (w : world h) : world h :=
  fold_left (fun w c => fst (exec h c w)) t w.

(** A host on which the commands of a class leave the state alone. *)
Definition inert (h : host) (P : cmd -> bool) : Prop :=
  forall c w, P c = true -> fst (exec h c w) = w.

(** [issues P p]: every command [p] can issue, whatever the host answers, is
    in the class [P]. *)
Inductive issues {A} (P : cmd -> bool) : prog A -> Prop :=
| issues_Ret a : issues P (Ret a)
| issues_Throw e : issues P (Throw e)
| issues_Call c k :
    P c = true -> (forall v, issues P (k v)) -> issues P (Call c k).

(** The first part of [main] issues queries, the error message, the unbind
    and the bind, and nothing else; the second part issues warnings, the
    weight copy and the reselection, and nothing else. *)
Definition in_main_bind (c : cmd) : bool :=
  is_query c || is_unbind c || is_bind c
  || match c with Error _ => true | _ => false end.

Definition in_main_copy (c : cmd) : bool :=
  is_copy c || is_select c
  || match c with Warning _ => true | _ => false end.

(** The three ways the second part of [main] can go. *)
Definition warn_and_return (msg : string) : prog (flow unit) :=
  call (Warning msg) ;; return_.

Definition copy_and_select (kw : copy_kwargs) (sel : list string)
  : prog (flow unit) :=
  _ <~ lift (call (CopySkinWeights kw)) ;; lift (call (Select sel)).

(** The UV set a mesh contributes to the copy: the user's, when one is
    supplied and is among the UV sets of the mesh; the first UV set of the
    mesh, when none is supplied. *)
Definition resolved_uv (user : string) (sets : list string) : option string :=
  if user =? "" then hd_error sets
  else if py_in user sets then Some user else None.

(** ** Results of runs *)

(** The commands so far, one more command, and the end: the function
    returns if the command returns, and its exception goes through
    otherwise. *)
Definition stop_with (h : host) (t0 : list cmd) (c : cmd) (w0 : world h)
  : result h unit :=
  match exec h c w0 with
  | (w1, inl e) => (t0 ++ [c], w1, Raised e)
  | (w1, inr _) => (t0 ++ [c], w1, Returned tt)
  end.

(** The commands so far, the weight copy, and the reselection if the copy
    returns. *)
Definition copy_then_select (h : host) (t0 : list cmd) (kw : copy_kwargs)
  (sel : list string) (w0 : world h) : result h unit :=
  match exec h (CopySkinWeights kw) w0 with
  | (w1, inl e) => (t0 ++ [CopySkinWeights kw], w1, Raised e)
  | (w1, inr _) =>
      match exec h (Select sel) w1 with
      | (w2, inl e) => (t0 ++ [CopySkinWeights kw; Select sel], w2, Raised e)
      | (w2, inr _) =>
          (t0 ++ [CopySkinWeights kw; Select sel], w2, Returned tt)
      end
  end.

(** ** A small host to run the script on *)

(** A scene with a selection and a table of skin clusters.  Every object of
    the scene is a transform [t] with one shape, [t ++ "Shape"]; a bound
    transform [t] carries the cluster [t ++ "Skin"].  The UV sets of each
    shape are fixed by the scene description. *)
Module Toy.

Record scene : Type := mkScene {
  selected : list string;
  skins : list (string * list string)   (* transform, its influences *)
}.

Definition shape_of (t : string) : string := t ++ "Shape".
Definition skin_of (t : string) : string := t ++ "Skin".

Definition remove (t : string) (tbl : list (string * list string)) :=
  filter (fun e => negb (fst e =? t)) tbl.

Definition answer (uv : string -> option (list string)) (c : cmd)
  (w : scene) : scene * (exn + resp c) :=
  match c as c0 return (scene * (exn + resp c0)) with
  | Ls => (w, inr (Some (selected w)))
  | NodeType _ => (w, inr (Some "transform"))
  | ListRelatives t => (w, inr (Some [shape_of t]))
  | ListConnections s =>
      (w, inr (match find (fun e => shape_of (fst e) =? s) (skins w) with
               | Some e => Some [skin_of (fst e)]
               | None => None
               end))
  | SkinClusterQuery sc =>
      (w, inr (match sc with
               | PStr k =>
                   match find (fun e => skin_of (fst e) =? k) (skins w) with
                   | Some e => Some (snd e)
                   | None => None
                   end
               | _ => None
               end))
  | PolyUVSet n =>
      (w, inr (match n with
               | PList [s] => uv s
               | _ => None
               end))
  | Error msg => (w, inl (HostError msg))
  | Warning _ => (w, inr tt)
  | SkinClusterUnbind t =>
      ({| selected := selected w; skins := remove t (skins w) |}, inr tt)
  | SkinClusterBind objects _ =>
      match objects with
      | t :: joints =>
          ({| selected := selected w; skins := (t, joints) :: skins w |},
           inr tt)
      | [] => (w, inl (HostError "nothing to bind"))
      end
  | CopySkinWeights _ => (w, inr tt)
  | Select l => ({| selected := l; skins := skins w |}, inr tt)
  end.

Definition toy (uv : string -> option (list string)) : host :=
  {| world := scene; exec := answer uv |}.

(** Both meshes carry the UV set [map1]. *)
Definition uv_both (s : string) : option (list string) :=
  if (s =? "|srcShape") || (s =? "|dstShape") then Some ["map1"] else None.

(** Only the source mesh carries a UV set. *)
Definition uv_source_only (s : string) : option (list string) :=
  if s =? "|srcShape" then Some ["map1"] else None.

(** Only the destination mesh carries a UV set. *)
Definition uv_destination_only (s : string) : option (list string) :=
  if s =? "|dstShape" then Some ["map1"] else None.

(** The source mesh is bound to two joints; the destination is unbound. *)
Definition two_selected : scene :=
  {| selected := ["|src"; "|dst"];
     skins := [("|src", ["joint1"; "joint2"])] |}.

(** The same, the destination being bound already. *)
Definition rebind : scene :=
  {| selected := ["|src"; "|dst"];
     skins := [("|src", ["joint1"; "joint2"]); ("|dst", ["joint9"])] |}.

Definition three_selected : scene :=
  {| selected := ["|src"; "|dst"; "|other"];
     skins := [("|src", ["joint1"; "joint2"])] |}.

Definition one_selected : scene :=
  {| selected := ["|src"];
     skins := [("|src", ["joint1"; "joint2"])] |}.

End Toy.


(** ** Further classes and a second small host *)

(** The queries [getSkinCluster] makes: the node type, the shapes, the
    connected skin clusters. *)
Definition is_lookup (c : cmd) : bool :=
  match c with
  | NodeType _ | ListRelatives _ | ListConnections _ => true
  | _ => false
  end.

(** The place of a scene-changing command in the order [main] follows:
    unbind, bind, weight copy, reselection. *)
Definition edit_rank (c : cmd) : nat :=
  match c with
  | SkinClusterUnbind _ => 1
  | SkinClusterBind _ _ => 2
  | CopySkinWeights _ => 3
  | Select _ => 4
  | _ => 0
  end.

(** [yields Q p]: every value [p] can return, whatever the host answers,
    satisfies [Q]. *)
Inductive yields {A} (Q : A -> Prop) : prog A -> Prop :=
| yields_Ret a : Q a -> yields Q (Ret a)
| yields_Throw e : yields Q (Throw e)
| yields_Call c k : (forall v, yields Q (k v)) -> yields Q (Call c k).

(** The order of the commands of [main], as an automaton: the selection
    query comes first; then queries, around at most one unbind followed by
    the bind; after the bind a weight copy immediately followed by the
    reselection; an error is possible only before any change, a warning only
    between the bind and the copy, and nothing follows a message or the
    reselection. *)
Inductive phase : Type :=
| Entry | Start | Unbound | Bound | Copied | Reselected | Reported.

Definition is_scene_query (c : cmd) : bool :=
  match c with
  | NodeType _ | ListRelatives _ | ListConnections _
  | SkinClusterQuery _ | PolyUVSet _ => true
  | _ => false
  end.

Definition protocol (s : phase) (c : cmd) : option phase :=
  match s, c with
  | Entry, Ls => Some Start
  | Start, Error _ => Some Reported
  | Start, SkinClusterUnbind _ => Some Unbound
  | (Start | Unbound), SkinClusterBind _ _ => Some Bound
  | Bound, Warning _ => Some Reported
  | Bound, CopySkinWeights _ => Some Copied
  | Copied, Select _ => Some Reselected
  | (Start | Unbound | Bound), _ =>
      if is_scene_query c then Some s else None
  | _, _ => None
  end.

(** How far a phase is in the order of the scene-changing commands. *)
Definition phase_rank (s : phase) : nat :=
  match s with
  | Entry | Start => 0
  | Unbound => 1
  | Bound => 2
  | Copied => 3
  | Reselected | Reported => 4
  end.

(** The phase a sequence of commands leads to, if the automaton accepts
    it. *)
Fixpoint follow (s : phase) (t : list cmd) : option phase :=
  match t with
  | [] => Some s
  | c :: t =>
      match protocol s c with
      | Some s1 => follow s1 t
      | None => None
      end
  end.

(** [obeys Q s p]: from the phase [s], whatever the host answers, [p] issues
    commands the automaton accepts, and returns in a phase and with a value
    that satisfy [Q]. *)
Inductive obeys {A} (Q : phase -> A -> Prop) : phase -> prog A -> Prop :=
| obeys_Ret s a : Q s a -> obeys Q s (Ret a)
| obeys_Throw s e : obeys Q s (Throw e)
| obeys_Call s c k s1 :
    protocol s c = Some s1 -> (forall v, obeys Q s1 (k v)) ->
    obeys Q s (Call c k).

(** A scene that no command changes, given by what each query answers; the
    state of the host is the selection. *)
Module Static.

Record scene : Type := mkScene {
  nodeType : string -> option string;
  shapes : string -> option (list string);
  connections : string -> option (list string);
  influences : pyval -> option (list string);
  uvSets : pyval -> option (list string)
}.

Definition answer (s : scene) (c : cmd) (w : list string)
  : list string * (exn + resp c) :=
  match c as c0 return (list string * (exn + resp c0)) with
  | Ls => (w, inr (Some w))
  | NodeType n => (w, inr (nodeType s n))
  | ListRelatives n => (w, inr (shapes s n))
  | ListConnections o => (w, inr (connections s o))
  | SkinClusterQuery sc => (w, inr (influences s sc))
  | PolyUVSet n => (w, inr (uvSets s n))
  | Error msg => (w, inl (HostError msg))
  | Warning _ => (w, inr tt)
  | SkinClusterUnbind _ => (w, inr tt)
  | SkinClusterBind _ _ => (w, inr tt)
  | CopySkinWeights _ => (w, inr tt)
  | Select l => (l, inr tt)
  end.

Definition static (s : scene) : host :=
  {| world := list string; exec := answer s |}.

(** A group with three shapes, the second and the third of which are bound;
    [body] is a mesh, not a transform. *)
Definition group : scene :=
  {| nodeType := fun n => if n =? "grp" then Some "transform"
                          else if n =? "" then None else Some "mesh";
     shapes := fun n => if n =? "grp" then Some ["a"; "b"; "c"] else None;
     connections := fun o => if o =? "b" then Some ["skinB"; "skinB2"]
                             else if o =? "c" then Some ["skinC"] else None;
     influences := fun sc => match sc with
                             | PStr "skinB" => Some ["joint1"; "joint2"]
                             | _ => None
                             end;
     uvSets := fun n => match n with
                        | PList ["a"; "b"; "c"] => Some ["map1"; "map2"]
                        | _ => None
                        end |}.

End Static.

(** [emits Q R p]: every command [p] can issue, whatever the host answers,
    satisfies [Q], and every value it can return satisfies [R]. *)
Inductive emits {A} (Q : cmd -> Prop) (R : A -> Prop) : prog A -> Prop :=
| emits_Ret a : R a -> emits Q R (Ret a)
| emits_Throw e : emits Q R (Throw e)
| emits_Call c k :
    Q c -> (forall v, emits Q R (k v)) -> emits Q R (Call c k).

(** The scene-changing commands of a call [main a] in which the selection
    query has answered [sel]: the unbind of the second selected object, the
    bind of that object, to some joints, with the keyword arguments of lines
    149-156, a weight copy with the keyword arguments of lines 193-200, and
    the select of [sel] itself. *)
Definition main_change (a : main_args) (sel : list string) (c : cmd) : Prop :=
  match c with
  | SkinClusterUnbind o => nth_error sel 1 = Some o
  | SkinClusterBind [] _ => False
  | SkinClusterBind (o :: _) kw =>
      nth_error sel 1 = Some o /\ kw = bind_kwargs_of a
  | CopySkinWeights kw =>
      exists ss ds su du, kw = copy_kwargs_of ss ds (PStr su) (PStr du)
  | Select s => s = sel
  | _ => True
  end.

(** The same call made two times in a row. *)
Definition twice {A} (p : prog A) : prog (A * A) :=
  x <- p ;; y <- p ;; Ret (x, y).

(** The first small host again, with a bind command that changes the
    selection: it leaves the skin cluster it makes selected. *)
Module Selecting.

Definition answer (uv : string -> option (list string)) (c : cmd)
  (w : Toy.scene) : Toy.scene * (exn + resp c) :=
  match c as c0 return (Toy.scene * (exn + resp c0)) with
  | SkinClusterBind (t :: joints) _ =>
      ({| Toy.selected := [Toy.skin_of t];
          Toy.skins := (t, joints) :: Toy.skins w |}, inr tt)
  | c0 => Toy.answer uv c0 w
  end.

Definition toy (uv : string -> option (list string)) : host :=
  {| world := Toy.scene; exec := answer uv |}.

End Selecting.

(** ** Lemmas on running programs *)

Section Runs.
Context {h : host}.

Lemma run_bind {A B} (p : prog A) (f : A -> prog B) (w : world h) :
  run h (bind p f) w = and_then (run h p w) (fun a => run h (f a)).
Proof.
  revert w; induction p as [a|e|c k IH]; intro w; simpl.
  - destruct (run h (f a) w) as [[t w2] o]; reflexivity.
  - reflexivity.
  - destruct (exec h c w) as [w1 [e|v]]; [reflexivity|].
    rewrite IH. destruct (run h (k v) w1) as [[t w2] [a|e]]; simpl.
    + destruct (run h (f a) w2) as [[t2 w3] o]; reflexivity.
    + reflexivity.
Qed.

Lemma run_bind_returned {A B} (p : prog A) (f : A -> prog B) w t w1 a :
  run h p w = (t, w1, Returned a) ->
  run h (bind p f) w =
    match run h (f a) w1 with (t2, w2, o) => (t ++ t2, w2, o) end.
Proof. intro H; rewrite run_bind, H; reflexivity. Qed.

Lemma run_call (c : cmd) (w : world h) :
  run h (call c) w =
    match exec h c w with
    | (w1, inl e) => ([c], w1, Raised e)
    | (w1, inr v) => ([c], w1, Returned v)
    end.
Proof.
  unfold call; simpl. destruct (exec h c w) as [w1 [e|v]]; reflexivity.
Qed.

Lemma run_bind_inv {A B} (p : prog A) (f : A -> prog B) w t w' b :
  run h (bind p f) w = (t, w', Returned b) ->
  exists t1 w1 a t2,
    run h p w = (t1, w1, Returned a)
    /\ run h (f a) w1 = (t2, w', Returned b)
    /\ t = t1 ++ t2.
Proof.
  rewrite run_bind.
  destruct (run h p w) as [[t1 w1] [a|e]]; simpl; [|discriminate].
  destruct (run h (f a) w1) as [[t2 w2] o] eqn:E2.
  intro E; injection E as <- <- ->.
  exists t1, w1, a, t2; auto.
Qed.

Lemma run_call_inv (c : cmd) w t w' v :
  run h (call c) w = (t, w', Returned v) ->
  exec h c w = (w', inr v) /\ t = [c].
Proof.
  rewrite run_call.
  destruct (exec h c w) as [w1 [e|v1]]; intro E; [discriminate|].
  injection E as <- <- <-; auto.
Qed.

Lemma run_Ret_inv {A} (a b : A) w t w' :
  run h (Ret a) w = (t, w', Returned b) -> t = [] /\ w' = w /\ b = a.
Proof. simpl; intro E; injection E as <- <- <-; auto. Qed.

(** The state after a run is the state its commands leave. *)
Lemma run_replay {A} (p : prog A) (w : world h) :
  world_of (run h p w) = replay h (trace_of (run h p w)) w.
Proof.
  revert w; induction p as [a|e|c k IH]; intro w; simpl; try reflexivity.
  destruct (exec h c w) as [w1 [e|v]] eqn:E.
  - unfold replay; simpl. rewrite E; reflexivity.
  - specialize (IH v w1).
    destruct (run h (k v) w1) as [[t w2] o].
    unfold replay, world_of, trace_of in *; simpl in *.
    rewrite E; exact IH.
Qed.

(** Commands of an inert class can be left out of a replay. *)
Lemma replay_filter (P : cmd -> bool) t (w : world h) :
  inert h P ->
  replay h t w = replay h (filter (fun c => negb (P c)) t) w.
Proof.
  intro HP. revert w; induction t as [|c t IH]; intro w; [reflexivity|].
  simpl. destruct (P c) eqn:E; simpl.
  - unfold replay at 1; simpl. rewrite (HP c w E). apply IH.
  - unfold replay; simpl. apply IH.
Qed.

Lemma replay_inert (P : cmd -> bool) t (w : world h) :
  inert h P -> Forall (fun c => P c = true) t -> replay h t w = w.
Proof.
  intros HP Ht. revert w; induction Ht as [|c t Hc _ IH]; intro w.
  - reflexivity.
  - unfold replay; simpl. rewrite (HP c w Hc). apply IH.
Qed.

Lemma issues_bind {A B} P (p : prog A) (f : A -> prog B) :
  issues P p -> (forall a, issues P (f a)) -> issues P (bind p f).
Proof.
  intros Hp Hf; induction Hp; simpl; auto; constructor; auto.
Qed.

Lemma issues_weaken {A} (P Q : cmd -> bool) (p : prog A) :
  (forall c, P c = true -> Q c = true) -> issues P p -> issues Q p.
Proof. intros HPQ Hp; induction Hp; constructor; auto. Qed.

Lemma issues_run {A} P (p : prog A) (w : world h) :
  issues P p -> Forall (fun c => P c = true) (trace_of (run h p w)).
Proof.
  intro Hp; revert w; induction Hp as [a|e|c k Hc Hk IH]; intro w; simpl.
  - constructor.
  - constructor.
  - destruct (exec h c w) as [w1 [e|v]]; simpl.
    + repeat constructor; exact Hc.
    + specialize (IH v w1).
      destruct (run h (k v) w1) as [[t w2] o]; simpl in *.
      constructor; assumption.
Qed.

End Runs.


(** ** What the functions can issue *)

Lemma issues_call P (c : cmd) : P c = true -> issues P (call c).
Proof. intro H; constructor; [exact H | intro; constructor]. Qed.

Lemma issues_index P l i : issues P (index l i).
Proof. unfold index; destruct (nth_error l i); constructor. Qed.

Lemma issues_find_connections names results :
  issues is_query (find_connections names results).
Proof.
  revert results; induction names as [|o rest IH]; intro results; simpl.
  - constructor.
  - constructor; [reflexivity|]. intro v.
    destruct (nonempty (or_empty v)); [constructor | apply IH].
Qed.

Lemma issues_getSkinCluster name : issues is_query (getSkinCluster name).
Proof.
  unfold getSkinCluster.
  apply issues_bind; [apply issues_call; reflexivity | intro ty].
  apply issues_bind.
  - destruct (py_eq ty "transform"); [|constructor].
    apply issues_bind; [apply issues_call; reflexivity | intro; constructor].
  - intro n. destruct (negb (truthy n)); [constructor|].
    apply issues_bind; [apply issues_find_connections | intro results].
    destruct (negb (nonempty results)); [constructor|].
    apply issues_bind; [apply issues_index | intro; constructor].
Qed.

Lemma issues_getInfluence name : issues is_query (getInfluence name).
Proof.
  unfold getInfluence.
  destruct (negb (truthy (PStr name))); [constructor|].
  apply issues_bind; [apply issues_getSkinCluster | intro sc].
  destruct (negb (truthy sc)); [constructor|].
  apply issues_bind; [apply issues_call; reflexivity | intro; constructor].
Qed.

Lemma issues_getUVSet name : issues is_query (getUVSet name).
Proof.
  unfold getUVSet.
  destruct (negb (truthy (PStr name))); [constructor|].
  apply issues_bind; [apply issues_call; reflexivity | intro ty].
  apply issues_bind.
  - destruct (py_eq ty "transform"); [|constructor].
    apply issues_bind; [apply issues_call; reflexivity | intro; constructor].
  - intro n.
    apply issues_bind; [apply issues_call; reflexivity | intro; constructor].
Qed.

Ltac issues_step :=
  first
    [ apply issues_Ret
    | apply issues_Throw
    | apply issues_index
    | apply issues_call; reflexivity
    | apply issues_bind; [ | intro ]
    | match goal with
      | |- issues _ (if ?b then _ else _) => destruct b
      | |- issues _ (match ?r with Next _ => _ | Return_ => _ end) =>
          destruct r
      end ].

Lemma issues_query_in_main_bind {A} (p : prog A) :
  issues is_query p -> issues in_main_bind p.
Proof.
  apply issues_weaken. intros c H; unfold in_main_bind; rewrite H; reflexivity.
Qed.

Lemma issues_main_bind a : issues in_main_bind (main_bind a).
Proof.
  unfold main_bind, next, return_.
  apply issues_bind; [apply issues_call; reflexivity | intro r].
  destruct (List.length (or_empty r) <? 2)%nat.
  - repeat issues_step.
  - apply issues_bind; [apply issues_index | intro so].
    apply issues_bind; [apply issues_index | intro do].
    apply issues_bind;
      [apply issues_query_in_main_bind, issues_getInfluence | intro si].
    apply issues_bind;
      [apply issues_query_in_main_bind, issues_getInfluence | intro di].
    apply issues_bind; [destruct (nonempty di); repeat issues_step | intros _].
    apply issues_bind; [apply issues_call; reflexivity | intros _].
    apply issues_bind;
      [apply issues_query_in_main_bind, issues_getSkinCluster | intro ss].
    apply issues_bind;
      [apply issues_query_in_main_bind, issues_getSkinCluster | intro ds].
    apply issues_bind;
      [apply issues_query_in_main_bind, issues_getUVSet | intro su].
    apply issues_bind;
      [apply issues_query_in_main_bind, issues_getUVSet | intro du].
    constructor.
Qed.

Lemma issues_main_copy a l : issues in_main_copy (main_copy a l).
Proof.
  unfold main_copy, bindf, lift, first_of, next, return_.
  repeat issues_step.
Qed.

(** A run of [main] is a run of its first part followed, when that part
    falls through, by a run of its second part. *)
Lemma run_main h a (w : world h) :
  run h (main a) w =
    match run h (main_bind a) w with
    | (t0, w0, Returned (Next l)) =>
        match run h (main_copy a l) w0 with
        | (t1, w1, Returned _) => (t0 ++ t1, w1, Returned tt)
        | (t1, w1, Raised e) => (t0 ++ t1, w1, Raised e)
        end
    | (t0, w0, Returned Return_) => (t0, w0, Returned tt)
    | (t0, w0, Raised e) => (t0, w0, Raised e)
    end.
Proof.
  unfold main, body, bindf. rewrite !run_bind.
  destruct (run h (main_bind a) w) as [[t0 w0] [[l|]|e]]; simpl.
  - destruct (run h (main_copy a l) w0) as [[t1 w1] [u|e]]; simpl.
    + rewrite app_nil_r; reflexivity.
    + reflexivity.
  - rewrite !app_nil_r; reflexivity.
  - reflexivity.
Qed.

(** ** The shape of a run of [main] *)

Lemma filter_none (P Q : cmd -> bool) (t : list cmd) :
  (forall c, P c = true -> Q c = false) ->
  Forall (fun c => P c = true) t -> filter Q t = [].
Proof.
  intros HPQ Ht; induction Ht as [|c t Hc _ IH]; simpl; [reflexivity|].
  rewrite (HPQ c Hc); exact IH.
Qed.

(** The commands of [main] are those of its first part followed by commands
    of its second part. *)
Lemma main_trace_split h a (w : world h) :
  exists tc,
    trace_of (run h (main a) w) = trace_of (run h (main_bind a) w) ++ tc
    /\ Forall (fun c => in_main_copy c = true) tc.
Proof.
  rewrite run_main.
  destruct (run h (main_bind a) w) as [[t0 w0] [[l|]|e]]; simpl.
  - pose proof (issues_run (h:=h) _ _ w0 (issues_main_copy a l)) as Hc.
    destruct (run h (main_copy a l) w0) as [[t1 w1] [u|e]]; simpl in *;
      exists t1; split; auto.
  - exists []; rewrite app_nil_r; split; [reflexivity | constructor].
  - exists []; rewrite app_nil_r; split; [reflexivity | constructor].
Qed.

#[local] Opaque call getSkinCluster getInfluence getUVSet.

(** With fewer than two objects selected the first part of [main] reports
    the error and returns. *)
Lemma main_bind_few h a (w w1 : world h) r :
  exec h Ls w = (w1, inr r) ->
  List.length (or_empty r) < 2 ->
  run h (main_bind a) w =
    match exec h (Error selectMessage) w1 with
    | (w2, inl e) => ([Ls; Error selectMessage], w2, Raised e)
    | (w2, inr _) => ([Ls; Error selectMessage], w2, Returned Return_)
    end.
Proof.
  intros H0 Hlen. unfold main_bind.
  rewrite run_bind, run_call, H0; simpl.
  apply Nat.ltb_lt in Hlen; rewrite Hlen.
  rewrite run_bind, (run_call (Error selectMessage)).
  destruct (exec h (Error selectMessage) w1) as [w2 [e|v]]; reflexivity.
Qed.

(** With two objects or more selected, up to the bind. *)
Lemma main_bind_trace h a (w w1 w2 w3 : world h) r so do rest t1 t2 si di :
  exec h Ls w = (w1, inr r) ->
  or_empty r = so :: do :: rest ->
  run h (getInfluence so) w1 = (t1, w2, Returned si) ->
  run h (getInfluence do) w2 = (t2, w3, Returned di) ->
  exists tq,
    Forall (fun c => is_query c = true) tq
    /\ ((nonempty di = true
         /\ (exists w4 e, exec h (SkinClusterUnbind do) w3 = (w4, inl e))
         /\ trace_of (run h (main_bind a) w)
            = Ls :: t1 ++ t2 ++ [SkinClusterUnbind do])
        \/ ((nonempty di = false
             \/ exists w4 u, exec h (SkinClusterUnbind do) w3 = (w4, inr u))
            /\ trace_of (run h (main_bind a) w)
               = Ls :: t1 ++ t2
                 ++ (if nonempty di then [SkinClusterUnbind do] else [])
                 ++ SkinClusterBind (do :: si) (bind_kwargs_of a) :: tq)).
Proof.
  intros H0 Hsel H1 H2.
  remember (run h (main_bind a) w) as R eqn:E. unfold main_bind in E.
  rewrite run_bind, run_call, H0 in E; simpl in E.
  rewrite Hsel in E; simpl in E.
  rewrite (run_bind_returned _ _ _ _ _ _ H1) in E.
  rewrite (run_bind_returned _ _ _ _ _ _ H2) in E.
  rewrite run_bind in E.
  assert (Hrest : forall w5,
    exists tq w6 o,
      Forall (fun c => is_query c = true) tq
      /\ run h (sourceSkin <- getSkinCluster so ;;
                destinationSkin <- getSkinCluster do ;;
                sourceUVSet <- getUVSet so ;;
                destinationUVSet <- getUVSet do ;;
                next {| selection := so :: do :: rest;
                        sourceObject := so;
                        destinationObject := do;
                        sourceSkin := sourceSkin;
                        destinationSkin := destinationSkin;
                        sourceUVSet := sourceUVSet;
                        destinationUVSet := destinationUVSet |}) w5
         = (tq, w6, o)).
  { intro w5.
    match goal with
    | |- context [run h ?p w5] =>
        assert (Hq : issues is_query p)
          by (repeat first
                [ apply issues_getSkinCluster
                | apply issues_getUVSet
                | apply issues_Ret
                | apply issues_bind; [ | intro ] ]);
        pose proof (issues_run (h:=h) _ _ w5 Hq) as Hr;
        destruct (run h p w5) as [[tq w6] o]
    end.
    exists tq, w6, o; split; [exact Hr | reflexivity]. }
  destruct (nonempty di) eqn:Hdi.
  - rewrite (run_call (SkinClusterUnbind do)) in E.
    destruct (exec h (SkinClusterUnbind do) w3) as [w4 [e|u]] eqn:Hu;
      simpl in E.
    + exists []; split; [constructor|]. left.
      subst R; repeat split; eauto.
    + rewrite run_bind, (run_call (SkinClusterBind _ _)) in E.
      destruct (exec h (SkinClusterBind (do :: si) (bind_kwargs_of a)) w4)
        as [w5 [e|u']] eqn:Hb; simpl in E.
      * exists []; split; [constructor|]. right; subst R; split; eauto.
      * destruct (Hrest w5) as (tq & w6 & o & Hq & Hr).
        rewrite Hr in E.
        exists tq; split; [exact Hq|]. right; subst R; split; eauto.
  - simpl in E. rewrite run_bind, (run_call (SkinClusterBind _ _)) in E.
    destruct (exec h (SkinClusterBind (do :: si) (bind_kwargs_of a)) w3)
      as [w5 [e|u']] eqn:Hb; simpl in E.
    + exists []; split; [constructor|]. right; subst R; split; eauto.
    + destruct (Hrest w5) as (tq & w6 & o & Hq & Hr).
      rewrite Hr in E.
      exists tq; split; [exact Hq|]. right; subst R; split; eauto.
Qed.

Lemma influence_trace h name (w w' : world h) t o :
  run h (getInfluence name) w = (t, w', o) ->
  Forall (fun c => is_query c = true) t.
Proof.
  intro H. pose proof (issues_run (h:=h) _ _ w (issues_getInfluence name)) as Hq.
  rewrite H in Hq; exact Hq.
Qed.

Lemma skin_edits_app t1 t2 :
  skin_edits (t1 ++ t2) = skin_edits t1 ++ skin_edits t2.
Proof. apply filter_app. Qed.

Lemma skin_edits_queries t :
  Forall (fun c => is_query c = true) t -> skin_edits t = [].
Proof.
  apply filter_none. intros c H; destruct c; cbv in H |- *; congruence.
Qed.

Lemma skin_edits_main_copy t :
  Forall (fun c => in_main_copy c = true) t -> skin_edits t = [].
Proof.
  apply filter_none. intros c H; destruct c; cbv in H |- *; congruence.
Qed.

Lemma filter_bind_skin_edits t :
  filter is_bind (skin_edits t) = filter is_bind t.
Proof.
  induction t as [|c t IH]; [reflexivity|].
  unfold skin_edits in *; simpl.
  destruct c; simpl; rewrite ?IH; reflexivity.
Qed.

(** The unbind and bind commands of a run of [main] that passes the
    selection check and gets the two influence lists. *)
Lemma main_skin_edits h a (w w1 w2 w3 : world h) r so do rest t1 t2 si di :
  exec h Ls w = (w1, inr r) ->
  or_empty r = so :: do :: rest ->
  run h (getInfluence so) w1 = (t1, w2, Returned si) ->
  run h (getInfluence do) w2 = (t2, w3, Returned di) ->
  (nonempty di = true
   /\ (exists w4 e, exec h (SkinClusterUnbind do) w3 = (w4, inl e))
   /\ skin_edits (trace_of (run h (main a) w)) = [SkinClusterUnbind do])
  \/ ((nonempty di = false
       \/ exists w4 u, exec h (SkinClusterUnbind do) w3 = (w4, inr u))
      /\ skin_edits (trace_of (run h (main a) w))
         = (if nonempty di then [SkinClusterUnbind do] else [])
           ++ [SkinClusterBind (do :: si) (bind_kwargs_of a)]).
Proof.
  intros H0 Hsel H1 H2.
  destruct (main_trace_split h a w) as (tc & Ht & Hc). rewrite Ht.
  destruct (main_bind_trace h a w w1 w2 w3 r so do rest t1 t2 si di
              H0 Hsel H1 H2) as (tq & Hq & [(Hd & Hu & Hb) | (Hu & Hb)]);
    rewrite Hb; [left | right]; (split; [assumption|]).
  - split; [assumption|].
    change (Ls :: t1 ++ t2 ++ [SkinClusterUnbind do])
      with ([Ls] ++ t1 ++ t2 ++ [SkinClusterUnbind do]).
    rewrite !skin_edits_app.
    rewrite (skin_edits_queries t1) by (eapply influence_trace; eassumption).
    rewrite (skin_edits_queries t2) by (eapply influence_trace; eassumption).
    rewrite (skin_edits_main_copy tc) by assumption.
    reflexivity.
  - change (Ls :: t1 ++ t2
            ++ (if nonempty di then [SkinClusterUnbind do] else [])
            ++ SkinClusterBind (do :: si) (bind_kwargs_of a) :: tq)
      with ([Ls] ++ t1 ++ t2
            ++ (if nonempty di then [SkinClusterUnbind do] else [])
            ++ [SkinClusterBind (do :: si) (bind_kwargs_of a)] ++ tq).
    rewrite !skin_edits_app.
    rewrite (skin_edits_queries t1) by (eapply influence_trace; eassumption).
    rewrite (skin_edits_queries t2) by (eapply influence_trace; eassumption).
    rewrite (skin_edits_queries tq) by assumption.
    rewrite (skin_edits_main_copy tc) by assumption.
    destruct (nonempty di); reflexivity.
Qed.

(** ** The selection check, the unbind and the bind *)

(** C1, as amended: for every host selection of fewer than two objects
    ([None] counting as none), [main] issues the selection query, reports the
    error through the host's error command and stops there: no unbind, bind
    or weight-copy command is issued.  (The check of line 130 is
    [len(selection) < 2]: a selection of three objects or more passes it.) *)
Theorem main_needs_two_selected h a (w w1 : world h) r :
  exec h Ls w = (w1, inr r) ->
  List.length (or_empty r) < 2 ->
  run h (main a) w = stop_with h [Ls] (Error selectMessage) w1
  /\ filter is_edit (trace_of (run h (main a) w)) = [].
Proof.
  intros H0 Hlen. rewrite run_main, (main_bind_few h a w w1 r H0 Hlen).
  unfold stop_with.
  destruct (exec h (Error selectMessage) w1) as [w2 [e|u]];
    split; reflexivity.
Qed.

(** When the influence query on the destination raises, the run ends there:
    nothing is bound. *)
Lemma main_bind_influence_raises h a (w w1 w2 w3 : world h)
  r so do rest t1 t2 si e :
  exec h Ls w = (w1, inr r) ->
  or_empty r = so :: do :: rest ->
  run h (getInfluence so) w1 = (t1, w2, Returned si) ->
  run h (getInfluence do) w2 = (t2, w3, Raised e) ->
  run h (main a) w = (Ls :: t1 ++ t2, w3, Raised e).
Proof.
  intros H0 Hsel H1 H2. rewrite run_main. unfold main_bind.
  rewrite run_bind, run_call, H0; simpl. rewrite Hsel; simpl.
  rewrite (run_bind_returned _ _ _ _ _ _ H1).
  rewrite run_bind, H2. reflexivity.
Qed.

(** C3: for every run of [main] that passes the selection check, a bind
    command, if one is issued, is the only one and receives the destination
    object followed by exactly the list that [getInfluence] returned for the
    first selected object, and nothing else; and the bind command is issued
    as soon as the influence query on the destination returns and the
    unbind, when there is one, returns. *)
Theorem main_binds_source_influences h a (w w1 w2 : world h)
  r so do rest t1 si :
  exec h Ls w = (w1, inr r) ->
  or_empty r = so :: do :: rest ->
  run h (getInfluence so) w1 = (t1, w2, Returned si) ->
  (filter is_bind (trace_of (run h (main a) w)) = []
   \/ filter is_bind (trace_of (run h (main a) w))
      = [SkinClusterBind (do :: si) (bind_kwargs_of a)])
  /\ (forall t2 w3 di,
        run h (getInfluence do) w2 = (t2, w3, Returned di) ->
        (di = []
         \/ exists w4 u, exec h (SkinClusterUnbind do) w3 = (w4, inr u)) ->
        filter is_bind (trace_of (run h (main a) w))
        = [SkinClusterBind (do :: si) (bind_kwargs_of a)]).
Proof.
  intros H0 Hsel H1.
  assert (Hret : forall t2 w3 di,
    run h (getInfluence do) w2 = (t2, w3, Returned di) ->
    (nonempty di = true
     /\ (exists w4 e, exec h (SkinClusterUnbind do) w3 = (w4, inl e))
     /\ filter is_bind (trace_of (run h (main a) w)) = [])
    \/ ((nonempty di = false
         \/ exists w4 u, exec h (SkinClusterUnbind do) w3 = (w4, inr u))
        /\ filter is_bind (trace_of (run h (main a) w))
           = [SkinClusterBind (do :: si) (bind_kwargs_of a)])).
  { intros t2 w3 di H2. rewrite <- filter_bind_skin_edits.
    destruct (main_skin_edits h a w w1 w2 w3 r so do rest t1 t2 si di
                H0 Hsel H1 H2) as [(Hd & Hu & Hb) | (Hu & Hb)];
      rewrite Hb; [left | right]; repeat split; auto.
    destruct (nonempty di); reflexivity. }
  split.
  - destruct (run h (getInfluence do) w2) as [[t2 w3] [di|e]] eqn:H2.
    + destruct (Hret t2 w3 di eq_refl) as [(_ & _ & Hb) | (_ & Hb)]; auto.
    + left.
      rewrite (main_bind_influence_raises h a w w1 w2 w3 r so do rest
                 t1 t2 si e H0 Hsel H1 H2).
      unfold trace_of; simpl. rewrite !filter_app.
      rewrite (filter_none is_query is_bind t1), (filter_none is_query is_bind t2);
        try reflexivity;
        try (intros c Hc; destruct c; cbv in Hc |- *; congruence).
      * eapply influence_trace; eassumption.
      * eapply influence_trace; eassumption.
  - intros t2 w3 di H2 H3.
    destruct (Hret t2 w3 di H2) as [(Hd & (w4 & e & Hu) & _) | (_ & Hb)];
      [|exact Hb].
    exfalso. destruct H3 as [-> | (w4' & u & Hu')]; [discriminate|].
    rewrite Hu in Hu'; discriminate.
Qed.

(** C9: for every run of [main] that passes the selection check, when
    [getInfluence] finds at least one influence on the destination object
    the unbind command for that object is issued, and it comes before the
    bind command (which follows as soon as the unbind returns); when the
    destination has no influence, no unbind command is issued and the bind
    is the only change made to a skin cluster. *)
Theorem main_unbinds_before_bind h a (w w1 w2 w3 : world h)
  r so do rest t1 t2 si di :
  exec h Ls w = (w1, inr r) ->
  or_empty r = so :: do :: rest ->
  run h (getInfluence so) w1 = (t1, w2, Returned si) ->
  run h (getInfluence do) w2 = (t2, w3, Returned di) ->
  (di <> [] ->
   exists after,
     skin_edits (trace_of (run h (main a) w)) = SkinClusterUnbind do :: after
     /\ (after = [] \/ after = [SkinClusterBind (do :: si) (bind_kwargs_of a)])
     /\ ((exists w4 u, exec h (SkinClusterUnbind do) w3 = (w4, inr u)) ->
         after = [SkinClusterBind (do :: si) (bind_kwargs_of a)]))
  /\ (di = [] ->
      skin_edits (trace_of (run h (main a) w))
      = [SkinClusterBind (do :: si) (bind_kwargs_of a)]).
Proof.
  intros H0 Hsel H1 H2.
  destruct (main_skin_edits h a w w1 w2 w3 r so do rest t1 t2 si di
              H0 Hsel H1 H2)
    as [(Hd & (w4 & e & Hu) & Hb) | (Hu & Hb)]; rewrite Hb; split.
  - intros _. exists []. split; [reflexivity|]. split; [now left|].
    intros (w4' & u & Hu'). rewrite Hu in Hu'; discriminate.
  - intros ->; discriminate.
  - intro Hne. destruct di as [|j di]; [congruence|]. simpl.
    eexists; split; [reflexivity|]. split; [now right | reflexivity].
  - intros ->; reflexivity.
Qed.

(** ** What the first part of [main] hands to the second *)

(** When the first part of [main] falls through, its local variables are what
    the host and the helper functions returned along the way: the selection
    is the answer to the selection query, the two objects are its first two
    elements, and the skin clusters and UV sets are the values returned by
    [getSkinCluster] and [getUVSet] on these objects, queried after the
    bind. *)
Lemma main_bind_returns h a (w w0 : world h) t0 l :
  run h (main_bind a) w = (t0, w0, Returned (Next l)) ->
  exists w1 r rest,
    exec h Ls w = (w1, inr r)
    /\ selection l = or_empty r
    /\ selection l = sourceObject l :: destinationObject l :: rest
    /\ exists t1 w2 si t2 w3 di w4 w5 t5 w6 t6 w7 t7 w8 t8,
         run h (getInfluence (sourceObject l)) w1 = (t1, w2, Returned si)
      /\ run h (getInfluence (destinationObject l)) w2
         = (t2, w3, Returned di)
      /\ ((di = [] /\ w4 = w3)
          \/ (di <> []
              /\ exec h (SkinClusterUnbind (destinationObject l)) w3
                 = (w4, inr tt)))
      /\ exec h (SkinClusterBind (destinationObject l :: si)
                   (bind_kwargs_of a)) w4 = (w5, inr tt)
      /\ run h (getSkinCluster (sourceObject l)) w5
         = (t5, w6, Returned (sourceSkin l))
      /\ run h (getSkinCluster (destinationObject l)) w6
         = (t6, w7, Returned (destinationSkin l))
      /\ run h (getUVSet (sourceObject l)) w7
         = (t7, w8, Returned (sourceUVSet l))
      /\ run h (getUVSet (destinationObject l)) w8
         = (t8, w0, Returned (destinationUVSet l))
      /\ t0 = Ls :: t1 ++ t2
              ++ (if nonempty di
                  then [SkinClusterUnbind (destinationObject l)] else [])
              ++ SkinClusterBind (destinationObject l :: si)
                   (bind_kwargs_of a)
                 :: t5 ++ t6 ++ t7 ++ t8.
Proof.
  intro E. unfold main_bind in E.
  apply run_bind_inv in E. destruct E as (tl & w1 & r & ? & H0 & E & ->).
  apply run_call_inv in H0. destruct H0 as [H0 ->].
  destruct (List.length (or_empty r) <? 2)%nat eqn:Hlen.
  { apply run_bind_inv in E. destruct E as (? & ? & ? & ? & _ & E & _).
    discriminate E. }
  destruct (or_empty r) as [|so [|do rest]] eqn:Hsel; try discriminate.
  simpl in E.
  apply run_bind_inv in E. destruct E as (t1 & w2 & si & ? & H1 & E & ->).
  apply run_bind_inv in E. destruct E as (t2 & w3 & di & ? & H2 & E & ->).
  apply run_bind_inv in E. destruct E as (tu & w4 & [] & ? & Hu & E & ->).
  apply run_bind_inv in E. destruct E as (tb & w5 & [] & ? & Hb & E & ->).
  apply (run_call_inv (SkinClusterBind _ _)) in Hb. destruct Hb as [Hb ->].
  apply run_bind_inv in E. destruct E as (t5 & w6 & ss & ? & H5 & E & ->).
  apply run_bind_inv in E. destruct E as (t6 & w7 & ds & ? & H6 & E & ->).
  apply run_bind_inv in E. destruct E as (t7 & w8 & su & ? & H7 & E & ->).
  apply run_bind_inv in E. destruct E as (t8 & w9 & du & ? & H8 & E & ->).
  apply run_Ret_inv in E. destruct E as (-> & -> & El).
  injection El as ->. simpl.
  exists w1, r, rest. repeat split; auto.
  exists t1, w2, si, t2, w3, di, w4, w5, t5, w6, t6, w7, t7, w8, t8.
  repeat split; auto.
  - destruct di as [|j di]; simpl in Hu.
    + apply run_Ret_inv in Hu. destruct Hu as (_ & -> & _). now left.
    + apply (run_call_inv (SkinClusterUnbind do)) in Hu.
      destruct Hu as [Hu _]. right; split; [discriminate | exact Hu].
  - rewrite app_nil_r. simpl. do 3 f_equal.
    destruct di as [|j di]; simpl in Hu |- *.
    + apply run_Ret_inv in Hu. destruct Hu as (-> & _). reflexivity.
    + apply (run_call_inv (SkinClusterUnbind do)) in Hu.
      destruct Hu as [_ ->]. reflexivity.
Qed.


(** ** The second part of [main], case by case *)

#[local] Transparent call.

Lemma py_in_In s l : py_in s l = true <-> In s l.
Proof.
  unfold py_in. rewrite existsb_exists. split.
  - intros (x & Hx & E). apply String.eqb_eq in E. now subst.
  - intro H. exists s. split; [exact H | apply String.eqb_refl].
Qed.

Lemma py_in_not_In s l : py_in s l = false <-> ~ In s l.
Proof.
  rewrite <- py_in_In. destruct (py_in s l); split; congruence.
Qed.

Lemma main_copy_shape a l :
  (exists msg,
      (msg = sourceMessage \/ msg = destinationMessage)
      /\ main_copy a l = warn_and_return msg)
  \/ main_copy a l = Throw IndexError
  \/ (exists kw, main_copy a l = copy_and_select kw (selection l)).
Proof.
  unfold main_copy, warn_and_return, copy_and_select.
  unfold bindf, next, return_, lift, first_of, index, call.
  cbn [py_iter truthy].
  destruct (userSourceUVSet a =? "") eqn:Hus;
    destruct (py_in (userSourceUVSet a) (sourceUVSet l));
    destruct (userDestinationUVSet a =? "") eqn:Hud;
    destruct (py_in (userDestinationUVSet a) (destinationUVSet l));
    destruct (sourceUVSet l) as [|x xs];
    destruct (destinationUVSet l) as [|y ys];
    simpl; rewrite ?Hus, ?Hud; simpl;
    try (destruct (x =? ""); simpl); eauto 7.
Qed.

Ltac main_copy_cases a l :=
  unfold main_copy, warn_and_return, copy_and_select;
  unfold bindf, next, return_, lift, first_of, index, call;
  cbn [py_iter truthy];
  repeat match goal with
         | H : (_ =? "") = _ |- _ => rewrite H
         | H : py_in _ _ = _ |- _ => rewrite H
         | H : sourceUVSet l = _ |- _ => rewrite H
         | H : destinationUVSet l = _ |- _ => rewrite H
         end;
  simpl;
  repeat match goal with
         | H : (_ =? "") = _ |- _ => rewrite H; simpl
         end.

Lemma main_copy_source_missing a l :
  userSourceUVSet a = "" ->
  sourceUVSet l = [] ->
  main_copy a l = warn_and_return sourceMessage.
Proof.
  intros Hu Hs.
  assert (Hus : (userSourceUVSet a =? "") = true) by (rewrite Hu; reflexivity).
  destruct (py_in (userSourceUVSet a) (sourceUVSet l)) eqn:His;
    main_copy_cases a l; reflexivity.
Qed.

Lemma main_copy_source_unknown a l :
  userSourceUVSet a <> "" ->
  ~ In (userSourceUVSet a) (sourceUVSet l) ->
  main_copy a l = warn_and_return sourceMessage.
Proof.
  intros Hu Hs.
  apply String.eqb_neq in Hu. apply py_in_not_In in Hs.
  main_copy_cases a l; reflexivity.
Qed.

Lemma main_copy_destination_unknown a l :
  userDestinationUVSet a <> "" ->
  ~ In (userDestinationUVSet a) (destinationUVSet l) ->
  main_copy a l = warn_and_return sourceMessage
  \/ main_copy a l = warn_and_return destinationMessage.
Proof.
  intros Hu Hd.
  apply String.eqb_neq in Hu. apply py_in_not_In in Hd.
  destruct (userSourceUVSet a =? "") eqn:Hus;
    destruct (py_in (userSourceUVSet a) (sourceUVSet l)) eqn:His;
    destruct (sourceUVSet l) as [|x xs] eqn:Hs;
    main_copy_cases a l; auto.
Qed.

Lemma main_copy_resolved a l su du :
  resolved_uv (userSourceUVSet a) (sourceUVSet l) = Some su ->
  resolved_uv (userDestinationUVSet a) (destinationUVSet l) = Some du ->
  su <> "" ->
  main_copy a l
  = copy_and_select
      (copy_kwargs_of (sourceSkin l) (destinationSkin l) (PStr su) (PStr du))
      (selection l).
Proof.
  unfold resolved_uv. intros Hs Hd Hne. apply String.eqb_neq in Hne.
  destruct (userSourceUVSet a =? "") eqn:Hus;
    destruct (py_in (userSourceUVSet a) (sourceUVSet l)) eqn:His;
    destruct (userDestinationUVSet a =? "") eqn:Hud;
    destruct (py_in (userDestinationUVSet a) (destinationUVSet l)) eqn:Hid;
    destruct (sourceUVSet l) as [|x xs] eqn:Hsl;
    destruct (destinationUVSet l) as [|y ys] eqn:Hdl;
    simpl in Hs, Hd; try discriminate;
    injection Hs as Hs; injection Hd as Hd; subst;
    main_copy_cases a l; rewrite ?Hne; reflexivity.
Qed.

(** Line 187 tests the source UV set a second time where the destination's
    is meant: a destination mesh without UV sets is not noticed, and line
    191 indexes the empty list. *)
Lemma main_copy_destination_missing a l su :
  resolved_uv (userSourceUVSet a) (sourceUVSet l) = Some su ->
  su <> "" ->
  userDestinationUVSet a = "" ->
  destinationUVSet l = [] ->
  main_copy a l = Throw IndexError.
Proof.
  unfold resolved_uv. intros Hs Hne Hu Hd. apply String.eqb_neq in Hne.
  assert (Hud : (userDestinationUVSet a =? "") = true)
    by (rewrite Hu; reflexivity).
  destruct (userSourceUVSet a =? "") eqn:Hus;
    destruct (py_in (userSourceUVSet a) (sourceUVSet l)) eqn:His;
    destruct (py_in (userDestinationUVSet a) (destinationUVSet l)) eqn:Hid;
    destruct (sourceUVSet l) as [|x xs] eqn:Hsl;
    simpl in Hs; try discriminate;
    injection Hs as Hs; subst;
    main_copy_cases a l; rewrite ?Hne; reflexivity.
Qed.

Lemma stop_with_trace h t0 c (w0 : world h) :
  trace_of (stop_with h t0 c w0) = t0 ++ [c].
Proof.
  unfold stop_with. destruct (exec h c w0) as [w1 [e|u]]; reflexivity.
Qed.

Lemma main_warns h a (w w0 : world h) t0 l msg :
  run h (main_bind a) w = (t0, w0, Returned (Next l)) ->
  main_copy a l = warn_and_return msg ->
  run h (main a) w = stop_with h t0 (Warning msg) w0.
Proof.
  intros Hb Hc. rewrite run_main, Hb, Hc.
  unfold warn_and_return, stop_with, call, return_; simpl.
  destruct (exec h (Warning msg) w0) as [w1 [e|u]]; reflexivity.
Qed.

Lemma main_copies h a (w w0 : world h) t0 l kw :
  run h (main_bind a) w = (t0, w0, Returned (Next l)) ->
  main_copy a l = copy_and_select kw (selection l) ->
  run h (main a) w = copy_then_select h t0 kw (selection l) w0.
Proof.
  intros Hb Hc. rewrite run_main, Hb, Hc.
  unfold copy_and_select, copy_then_select, bindf, lift, call, next; simpl.
  destruct (exec h (CopySkinWeights kw) w0) as [w1 [e|u]]; [reflexivity|].
  destruct (exec h (Select (selection l)) w1) as [w2 [e|u']]; reflexivity.
Qed.

Lemma main_raises h a (w w0 : world h) t0 l e :
  run h (main_bind a) w = (t0, w0, Returned (Next l)) ->
  main_copy a l = Throw e ->
  run h (main a) w = (t0, w0, Raised e).
Proof.
  intros Hb Hc. rewrite run_main, Hb, Hc; simpl.
  rewrite app_nil_r; reflexivity.
Qed.

Lemma filter_copy_main_bind h a (w w0 : world h) t0 o :
  run h (main_bind a) w = (t0, w0, o) ->
  filter is_copy t0 = [].
Proof.
  intro Hb. pose proof (issues_run (h:=h) _ _ w (issues_main_bind a)) as H.
  rewrite Hb in H. simpl in H.
  apply (filter_none in_main_bind); [|exact H].
  intros c Hc; destruct c; cbv in Hc |- *; congruence.
Qed.

Lemma filter_nil_not_In (P : cmd -> bool) (t : list cmd) (c : cmd) :
  filter P t = [] -> P c = true -> ~ In c t.
Proof.
  intros Hf Hc Hin.
  assert (H : In c (filter P t)) by (apply filter_In; auto).
  rewrite Hf in H; exact H.
Qed.

(** ** The UV checks and the weight copy *)

(** C5: for every run of [main] that reaches the choice of the UV sets, if
    no source UV set is supplied by the user and [getUVSet] returned no UV
    set for the source object, [main] reports the source warning through the
    host's warning command and stops there; the weight-copy command is not
    issued. *)
Theorem main_source_uv_missing h a (w w0 : world h) t0 l :
  run h (main_bind a) w = (t0, w0, Returned (Next l)) ->
  userSourceUVSet a = "" ->
  sourceUVSet l = [] ->
  run h (main a) w = stop_with h t0 (Warning sourceMessage) w0
  /\ filter is_copy (trace_of (run h (main a) w)) = [].
Proof.
  intros Hb Hu Hs.
  rewrite (main_warns h a w w0 t0 l sourceMessage Hb
             (main_copy_source_missing a l Hu Hs)).
  split; [reflexivity|].
  rewrite stop_with_trace, filter_app, (filter_copy_main_bind _ _ _ _ _ _ Hb).
  reflexivity.
Qed.

(** C6: for every run of [main] that reaches the choice of the UV sets, if
    the user's source UV set is non-empty and not among the UV sets of the
    source mesh, or the user's destination UV set is non-empty and not among
    those of the destination mesh, [main] reports a warning (the source or
    the destination one) through the host's warning command and returns; the
    weight-copy command is not issued. *)
Theorem main_user_uv_unknown h a (w w0 : world h) t0 l :
  run h (main_bind a) w = (t0, w0, Returned (Next l)) ->
  (userSourceUVSet a <> ""
   /\ ~ In (userSourceUVSet a) (sourceUVSet l))
  \/ (userDestinationUVSet a <> ""
      /\ ~ In (userDestinationUVSet a) (destinationUVSet l)) ->
  exists msg,
    (msg = sourceMessage \/ msg = destinationMessage)
    /\ run h (main a) w = stop_with h t0 (Warning msg) w0
    /\ filter is_copy (trace_of (run h (main a) w)) = [].
Proof.
  intros Hb Hcase.
  assert (Hc : exists msg,
             (msg = sourceMessage \/ msg = destinationMessage)
             /\ main_copy a l = warn_and_return msg).
  { destruct Hcase as [[Hu Hn] | [Hu Hn]].
    - exists sourceMessage; split; [now left|].
      apply main_copy_source_unknown; assumption.
    - destruct (main_copy_destination_unknown a l Hu Hn) as [H | H];
        eauto. }
  destruct Hc as (msg & Hmsg & Hc). exists msg. split; [exact Hmsg|].
  rewrite (main_warns h a w w0 t0 l msg Hb Hc).
  split; [reflexivity|].
  rewrite stop_with_trace, filter_app, (filter_copy_main_bind _ _ _ _ _ _ Hb).
  reflexivity.
Qed.


(** What the code does where C2 expects a warning: when the source mesh
    contributes a UV set, no destination UV set is supplied and [getUVSet]
    returned none for the destination object, [main] raises [IndexError]
    after its first part, without any warning. *)
Lemma main_destination_uv_missing h a (w w0 : world h) t0 l su :
  run h (main_bind a) w = (t0, w0, Returned (Next l)) ->
  resolved_uv (userSourceUVSet a) (sourceUVSet l) = Some su ->
  su <> "" ->
  userDestinationUVSet a = "" ->
  destinationUVSet l = [] ->
  run h (main a) w = (t0, w0, Raised IndexError)
  /\ filter is_message (trace_of (run h (main a) w)) = [].
Proof.
  intros Hb Hs Hne Hu Hd.
  rewrite (main_raises h a w w0 t0 l IndexError Hb
             (main_copy_destination_missing a l su Hs Hne Hu Hd)).
  split; [reflexivity|]. simpl.
  destruct (main_bind_returns h a w w0 t0 l Hb)
    as (w1 & r & rest & _ & _ & _ & t1 & w2 & si & t2 & w3 & di & w4 & w5
        & t5 & w6 & t6 & w7 & t7 & w8 & t8
        & H1 & H2 & _ & _ & H5 & H6 & H7 & H8 & ->).
  assert (Hq : forall t, Forall (fun c => is_query c = true) t ->
                         filter is_message t = []).
  { intros t Ht. apply (filter_none is_query); [|exact Ht].
    intros c Hc; destruct c; cbv in Hc |- *; congruence. }
  pose proof (issues_run (h:=h) _ _ w1 (issues_getInfluence (sourceObject l)))
    as Q1; rewrite H1 in Q1.
  pose proof (issues_run (h:=h) _ _ w2
                (issues_getInfluence (destinationObject l)))
    as Q2; rewrite H2 in Q2.
  pose proof (issues_run (h:=h) _ _ w5
                (issues_getSkinCluster (sourceObject l)))
    as Q5; rewrite H5 in Q5.
  pose proof (issues_run (h:=h) _ _ w6
                (issues_getSkinCluster (destinationObject l)))
    as Q6; rewrite H6 in Q6.
  pose proof (issues_run (h:=h) _ _ w7 (issues_getUVSet (sourceObject l)))
    as Q7; rewrite H7 in Q7.
  pose proof (issues_run (h:=h) _ _ w8
                (issues_getUVSet (destinationObject l)))
    as Q8; rewrite H8 in Q8.
  simpl in Q1, Q2, Q5, Q6, Q7, Q8.
  unfold trace_of; simpl.
  destruct (nonempty di); simpl; rewrite !filter_app; simpl;
    rewrite !filter_app;
    rewrite (Hq t1 Q1), (Hq t2 Q2), (Hq t5 Q5), (Hq t6 Q6), (Hq t7 Q7),
      (Hq t8 Q8); reflexivity.
Qed.

(** ** The selection *)

Lemma replay_frame h (selected : world h -> list string) t (w : world h) :
  (forall c w0, In c t -> selected (fst (exec h c w0)) = selected w0) ->
  selected (replay h t w) = selected w.
Proof.
  revert w; induction t as [|c t IH]; intros w Hframe.
  - reflexivity.
  - unfold replay; simpl. fold (replay h t (fst (exec h c w))).
    rewrite IH.
    + apply Hframe. now left.
    + intros c0 w0 Hin. apply Hframe. now right.
Qed.

(** C8, as amended: on a host whose selection query answers the current
    selection without changing it and whose select command, when it returns,
    makes its argument the selection:
    - in every run of [main] that reaches the weight-copy command, either
      that command raises, or the next and last command of [main] is the
      select command applied to the list that was selected when [main] was
      entered, and no other select command is issued; when the run then
      returns, the selection is the one at entry, whatever the commands
      before have done to it;
    - in every run that ends before the weight-copy command, [main] issues
      no select command at all: the selection is left as the commands of
      the run leave it, which is the one at entry when none of the commands
      issued in the run changes the selection. *)
Theorem main_restores_selection h (selected : world h -> list string)
  a (w w' : world h) t o :
  (forall w0, exists r,
      exec h Ls w0 = (w0, inr r) /\ or_empty r = selected w0) ->
  (forall sel w0 w1 u,
      exec h (Select sel) w0 = (w1, inr u) -> selected w1 = sel) ->
  run h (main a) w = (t, w', o) ->
  ((exists kw, In (CopySkinWeights kw) t) ->
   (exists t0 kw e, t = t0 ++ [CopySkinWeights kw] /\ o = Raised e)
   \/ (exists t0 kw,
          t = t0 ++ [CopySkinWeights kw; Select (selected w)]
          /\ filter is_select t0 = []
          /\ (o = Returned tt -> selected w' = selected w)))
  /\ ((forall kw, ~ In (CopySkinWeights kw) t) ->
      filter is_select t = []
      /\ w' = replay h t w
      /\ ((forall c w0, In c t ->
                        selected (fst (exec h c w0)) = selected w0) ->
          selected w' = selected w)).
Proof.
  intros Hls Hselect Hrun.
  assert (Hbind_sel : forall t0 w0 o0,
             run h (main_bind a) w = (t0, w0, o0) ->
             filter is_select t0 = [] /\ filter is_copy t0 = []).
  { intros t0 w0 o0 Hb.
    pose proof (issues_run (h:=h) _ _ w (issues_main_bind a)) as H.
    rewrite Hb in H; simpl in H.
    split; apply (filter_none in_main_bind); try exact H;
      intros c Hc; destruct c; cbv in Hc |- *; congruence. }
  assert (Hnocopy : forall t0 kw,
             filter is_copy t0 = [] -> ~ In (CopySkinWeights kw) t0).
  { intros t0 kw Hf. apply (filter_nil_not_In is_copy); auto. }
  assert (Hb_frame :
            (forall kw, ~ In (CopySkinWeights kw) t) ->
            filter is_select t = [] ->
            filter is_select t = []
            /\ w' = replay h t w
            /\ ((forall c w0, In c t ->
                              selected (fst (exec h c w0)) = selected w0) ->
                selected w' = selected w)).
  { intros _ Hf. split; [exact Hf|].
    pose proof (run_replay (h:=h) (main a) w) as Hr.
    rewrite Hrun in Hr; unfold world_of, trace_of in Hr; simpl in Hr.
    split; [exact Hr|]. intro Hframe.
    rewrite Hr. apply replay_frame; assumption. }
  rewrite run_main in Hrun.
  destruct (run h (main_bind a) w) as [[t0 w0] [[l|]|e]] eqn:Hb;
    destruct (Hbind_sel _ _ _ eq_refl) as [Hsel0 Hcopy0].
  - destruct (main_copy_shape a l)
      as [(msg & _ & Hc) | [Hc | (kw & Hc)]]; rewrite Hc in Hrun.
    + (* a warning *)
      unfold warn_and_return, call, return_ in Hrun; simpl in Hrun.
      assert (Et : t = t0 ++ [Warning msg])
        by (destruct (exec h (Warning msg) w0) as [w1 [e|u]];
            injection Hrun as <- _ _; reflexivity).
      assert (Hs : filter is_select t = [])
        by (rewrite Et, filter_app, Hsel0; reflexivity).
      split; [|intro Hn; apply Hb_frame; assumption].
      intros (kw & Hin). exfalso. rewrite Et in Hin.
      apply in_app_or in Hin. destruct Hin as [Hin | [Hin | []]].
      * exact (Hnocopy _ _ Hcopy0 Hin).
      * discriminate Hin.
    + (* the index error of line 191 *)
      simpl in Hrun. rewrite app_nil_r in Hrun. injection Hrun as <- <- <-.
      split; [|intro Hn; apply Hb_frame; assumption].
      intros (kw & Hin). exfalso. exact (Hnocopy _ _ Hcopy0 Hin).
    + (* the copy *)
      destruct (main_bind_returns h a w w0 t0 l Hb)
        as (w1 & r & rest & H0 & Hl & _).
      destruct (Hls w) as (r' & H0' & Hr').
      rewrite H0 in H0'. injection H0' as -> ->.
      assert (Esel : selection l = selected w) by congruence.
      unfold copy_and_select, bindf, lift, call, next in Hrun;
        simpl in Hrun.
      destruct (exec h (CopySkinWeights kw) w0) as [wc [e|u]] eqn:Ec.
      * injection Hrun as <- <- <-.
        split.
        -- intros _. left. exists t0, kw, e. auto.
        -- intro Hn. exfalso. apply (Hn kw), in_or_app; right; now left.
      * rewrite Esel in Hrun.
        destruct (exec h (Select (selected w)) wc) as [ws [e|u']] eqn:Es;
          injection Hrun as <- <- <-.
        -- split.
           ++ intros _. right. exists t0, kw. repeat split; auto.
              discriminate.
           ++ intro Hn. exfalso.
              apply (Hn kw), in_or_app; right; now left.
        -- split.
           ++ intros _. right. exists t0, kw. repeat split; auto.
              intros _. exact (Hselect _ _ _ _ Es).
           ++ intro Hn. exfalso.
              apply (Hn kw), in_or_app; right; now left.
  - injection Hrun as <- <- <-.
    split; [|intro Hn; apply Hb_frame; assumption].
    intros (kw & Hin). exfalso. exact (Hnocopy _ _ Hcopy0 Hin).
  - injection Hrun as <- <- <-.
    split; [|intro Hn; apply Hb_frame; assumption].
    intros (kw & Hin). exfalso. exact (Hnocopy _ _ Hcopy0 Hin).
Qed.

(** ** Queries and messages leave the scene alone *)

Lemma edit_or_not (c : cmd) :
  negb (is_query c || is_message c) = is_edit c.
Proof. destruct c; reflexivity. Qed.

Lemma helper_world h {A} (p : prog A) (w : world h) :
  inert h is_query -> issues is_query p -> world_of (run h p w) = w.
Proof.
  intros Hq Hp. rewrite run_replay.
  apply (replay_inert is_query); [exact Hq | apply issues_run, Hp].
Qed.

(** ** What the helper functions return *)

#[local] Transparent getSkinCluster getInfluence getUVSet.

(** The loop of [getSkinCluster] over objects none of which has a skin
    cluster connected, on a host whose queries leave the scene alone. *)
Lemma find_connections_none h names results0 (w : world h) :
  inert h is_query ->
  (forall o, In o names ->
     exists c, snd (exec h (ListConnections o) w) = inr c
               /\ or_empty c = []) ->
  run h (find_connections names results0) w
  = (map ListConnections names, w,
     Returned (match names with [] => results0 | _ :: _ => [] end)).
Proof.
  intros Hq. revert results0; induction names as [|o rest IH];
    intros results0 H.
  - reflexivity.
  - destruct (H o (or_introl eq_refl)) as (c & Ho & Hc).
    assert (Hexec : exec h (ListConnections o) w = (w, inr c)).
    { pose proof (Hq (ListConnections o) w eq_refl) as Hw.
      destruct (exec h (ListConnections o) w) as [w1 s0]; simpl in *.
      congruence. }
    cbn [find_connections].
    rewrite run_bind, run_call, Hexec. cbn [and_then]. rewrite Hc.
    cbn [nonempty]. rewrite (IH []).
    + destruct rest; reflexivity.
    + intros o' Hin. apply H. now right.
Qed.

(** C10: [getInfluence] returns the empty list when its argument is the
    empty string, and when [getSkinCluster] returns a false value ([[]],
    [None]) for it; [getSkinCluster] returns the empty list for the empty
    name (which the host does not report as a transform) and for a transform
    under which the host lists no shape, and returns [None] for a transform
    with shapes none of which has a skin cluster connected (the host's
    queries leaving the scene alone).  Neither of these two values is a
    string. *)
Theorem helper_results h :
  (forall w : world h, run h (getInfluence "") w = ([], w, Returned []))
  /\ (forall name (w w' : world h) t sc,
         name <> "" ->
         run h (getSkinCluster name) w = (t, w', Returned sc) ->
         truthy sc = false ->
         run h (getInfluence name) w = (t, w', Returned []))
  /\ (forall (w w1 : world h) ty,
         exec h (NodeType "") w = (w1, inr ty) ->
         py_eq ty "transform" = false ->
         run h (getSkinCluster "") w
         = ([NodeType ""], w1, Returned (PList [])))
  /\ (forall name (w w1 w2 : world h) ty r,
         exec h (NodeType name) w = (w1, inr ty) ->
         py_eq ty "transform" = true ->
         exec h (ListRelatives name) w1 = (w2, inr r) ->
         or_empty r = [] ->
         run h (getSkinCluster name) w
         = ([NodeType name; ListRelatives name], w2, Returned (PList [])))
  /\ (forall name (w w1 w2 : world h) ty r shape shapes,
         inert h is_query ->
         exec h (NodeType name) w = (w1, inr ty) ->
         py_eq ty "transform" = true ->
         exec h (ListRelatives name) w1 = (w2, inr r) ->
         or_empty r = shape :: shapes ->
         (forall o, In o (shape :: shapes) ->
            exists c, snd (exec h (ListConnections o) w2) = inr c
                      /\ or_empty c = []) ->
         run h (getSkinCluster name) w
         = (NodeType name :: ListRelatives name
              :: map ListConnections (shape :: shapes),
            w2, Returned PNone))
  /\ (forall s, PList [] <> PStr s /\ PNone <> PStr s).
Proof.
  repeat split; try discriminate.
  - intros name w w' t sc Hname Hsc Hfalse. unfold getInfluence.
    apply String.eqb_neq in Hname. cbn [truthy]. rewrite Hname.
    cbn [negb].
    rewrite (run_bind_returned _ _ _ _ _ _ Hsc), Hfalse. simpl.
    rewrite app_nil_r. reflexivity.
  - intros w w1 ty H0 Hty. unfold getSkinCluster.
    rewrite run_bind, run_call, H0. cbn [and_then]. rewrite Hty. reflexivity.
  - intros name w w1 w2 ty r H0 Hty H1 Hr. unfold getSkinCluster.
    rewrite run_bind, run_call, H0. cbn [and_then]. rewrite Hty.
    rewrite run_bind, run_bind, run_call, H1. cbn [and_then run].
    rewrite Hr. reflexivity.
  - intros name w w1 w2 ty r shape shapes Hq H0 Hty H1 Hr Hnone.
    pose proof (find_connections_none h (shape :: shapes) [] w2 Hq Hnone)
      as Hloop.
    unfold getSkinCluster.
    rewrite run_bind, run_call, H0. cbn [and_then]. rewrite Hty.
    rewrite run_bind, run_bind, run_call, H1. cbn [and_then run].
    rewrite Hr. cbn [app truthy negb py_iter].
    rewrite run_bind, Hloop. cbn [and_then nonempty negb run].
    rewrite app_nil_r. reflexivity.
Qed.

(** ** The script on the small host *)

Lemma toy_inert_query uv : inert (Toy.toy uv) is_query.
Proof. intros c w Hc; destruct c; try discriminate Hc; reflexivity. Qed.

Lemma toy_inert_message uv : inert (Toy.toy uv) is_message.
Proof. intros c w Hc; destruct c; try discriminate Hc; reflexivity. Qed.

Lemma toy_ls uv (w : world (Toy.toy uv)) :
  exists r, exec (Toy.toy uv) Ls w = (w, inr r)
            /\ or_empty r = Toy.selected w.
Proof. exists (Some (Toy.selected w)); split; reflexivity. Qed.

Lemma toy_select uv sel (w0 w1 : world (Toy.toy uv)) u :
  exec (Toy.toy uv) (Select sel) w0 = (w1, inr u) -> Toy.selected w1 = sel.
Proof. simpl. intro E; injection E as <- _. reflexivity. Qed.

(** One object selected: the error, and nothing else. *)
Lemma main_needs_two_selected_witness :
  run (Toy.toy Toy.uv_both) (main default_args) Toy.one_selected
  = stop_with (Toy.toy Toy.uv_both) [Ls] (Error selectMessage)
      Toy.one_selected
  /\ filter is_edit
       (trace_of (run (Toy.toy Toy.uv_both) (main default_args)
                    Toy.one_selected)) = [].
Proof.
  apply (main_needs_two_selected (Toy.toy Toy.uv_both) default_args
           Toy.one_selected Toy.one_selected (Some ["|src"])).
  - reflexivity.
  - simpl; lia.
Defined.

(** C1 as stated fails: with three objects selected the selection is not of
    length two, yet [main] reports nothing and binds, copies and reselects,
    working on the first two objects. *)
Lemma main_three_selected_proceeds :
  exec (Toy.toy Toy.uv_both) Ls Toy.three_selected
  = (Toy.three_selected, inr (Some ["|src"; "|dst"; "|other"]))
  /\ List.length ["|src"; "|dst"; "|other"] <> 2
  /\ filter is_message
       (trace_of (run (Toy.toy Toy.uv_both) (main default_args)
                    Toy.three_selected)) = []
  /\ filter is_edit
       (trace_of (run (Toy.toy Toy.uv_both) (main default_args)
                    Toy.three_selected))
     = [SkinClusterBind ["|dst"; "joint1"; "joint2"]
          (bind_kwargs_of default_args);
        CopySkinWeights
          (copy_kwargs_of (PStr "|srcSkin") (PStr "|dstSkin")
             (PStr "map1") (PStr "map1"));
        Select ["|src"; "|dst"; "|other"]].
Proof.
  split; [reflexivity|]. split; [discriminate|].
  split; vm_compute; reflexivity.
Qed.

(** C2 fails on the code: the destination mesh has no UV set and the user
    supplies none, [getUVSet] returns the empty list for it, and [main]
    ends in an [IndexError] (line 191) without having issued any warning. *)
Lemma main_destination_without_uv_raises :
  userDestinationUVSet default_args = ""
  /\ (exists t0 w0 l,
         run (Toy.toy Toy.uv_source_only) (main_bind default_args)
           Toy.two_selected = (t0, w0, Returned (Next l))
         /\ sourceUVSet l = ["map1"]
         /\ destinationUVSet l = [])
  /\ outcome_of (run (Toy.toy Toy.uv_source_only) (main default_args)
                   Toy.two_selected) = Raised IndexError
  /\ filter is_message
       (trace_of (run (Toy.toy Toy.uv_source_only) (main default_args)
                    Toy.two_selected)) = []
  /\ filter is_copy
       (trace_of (run (Toy.toy Toy.uv_source_only) (main default_args)
                    Toy.two_selected)) = [].
Proof.
  split; [reflexivity|]. split.
  - eexists; eexists; eexists. split; [vm_compute; reflexivity|].
    split; reflexivity.
  - repeat split; vm_compute; reflexivity.
Qed.

(** The destination being bound already: the bind receives the destination
    and the two joints of the source. *)
Lemma main_binds_source_influences_witness :
  filter is_bind
    (trace_of (run (Toy.toy Toy.uv_both) (main default_args) Toy.rebind))
  = [SkinClusterBind ("|dst" :: ["joint1"; "joint2"])
       (bind_kwargs_of default_args)].
Proof.
  apply (proj2
           (main_binds_source_influences (Toy.toy Toy.uv_both) default_args
              Toy.rebind Toy.rebind Toy.rebind
              (Some ["|src"; "|dst"]) "|src" "|dst" []
              [NodeType "|src"; ListRelatives "|src";
               ListConnections "|srcShape";
               SkinClusterQuery (PStr "|srcSkin")]
              ["joint1"; "joint2"] eq_refl eq_refl eq_refl)
           [NodeType "|dst"; ListRelatives "|dst";
            ListConnections "|dstShape"; SkinClusterQuery (PStr "|dstSkin")]
           Toy.rebind ["joint9"]).
  - vm_compute; reflexivity.
  - right. eexists; exists tt. reflexivity.
Defined.

(** The same run: the unbind, then the bind. *)
Lemma main_unbinds_before_bind_witness :
  (["joint9"] <> [] ->
   exists after,
     skin_edits
       (trace_of (run (Toy.toy Toy.uv_both) (main default_args) Toy.rebind))
     = SkinClusterUnbind "|dst" :: after
     /\ (after = []
         \/ after = [SkinClusterBind ("|dst" :: ["joint1"; "joint2"])
                       (bind_kwargs_of default_args)])
     /\ ((exists w4 u,
             exec (Toy.toy Toy.uv_both) (SkinClusterUnbind "|dst") Toy.rebind
             = (w4, inr u)) ->
         after = [SkinClusterBind ("|dst" :: ["joint1"; "joint2"])
                    (bind_kwargs_of default_args)]))
  /\ (["joint9"] = [] ->
      skin_edits
        (trace_of (run (Toy.toy Toy.uv_both) (main default_args) Toy.rebind))
      = [SkinClusterBind ("|dst" :: ["joint1"; "joint2"])
           (bind_kwargs_of default_args)]).
Proof.
  apply (main_unbinds_before_bind (Toy.toy Toy.uv_both) default_args
           Toy.rebind Toy.rebind Toy.rebind Toy.rebind
           (Some ["|src"; "|dst"]) "|src" "|dst" []
           [NodeType "|src"; ListRelatives "|src";
            ListConnections "|srcShape"; SkinClusterQuery (PStr "|srcSkin")]
           [NodeType "|dst"; ListRelatives "|dst";
            ListConnections "|dstShape"; SkinClusterQuery (PStr "|dstSkin")]
           ["joint1"; "joint2"] ["joint9"]).
  - reflexivity.
  - reflexivity.
  - vm_compute; reflexivity.
  - vm_compute; reflexivity.
Defined.


(** The source mesh carries no UV set: the source warning. *)
Lemma main_source_uv_missing_witness :
  exists t0 w0,
    run (Toy.toy Toy.uv_destination_only) (main default_args)
      Toy.two_selected
    = stop_with (Toy.toy Toy.uv_destination_only) t0
        (Warning sourceMessage) w0
    /\ filter is_copy
         (trace_of (run (Toy.toy Toy.uv_destination_only)
                      (main default_args) Toy.two_selected)) = [].
Proof.
  eexists; eexists.
  eapply (main_source_uv_missing (Toy.toy Toy.uv_destination_only)
            default_args Toy.two_selected).
  - vm_compute; reflexivity.
  - reflexivity.
  - reflexivity.
Defined.

(** The user asks for a destination UV set that the mesh does not have. *)
Lemma main_user_uv_unknown_witness :
  exists t0 w0 msg,
    (msg = sourceMessage \/ msg = destinationMessage)
    /\ run (Toy.toy Toy.uv_both)
         (main (mkArgs 4%float 5%Z "" "map2")) Toy.two_selected
       = stop_with (Toy.toy Toy.uv_both) t0 (Warning msg) w0
    /\ filter is_copy
         (trace_of (run (Toy.toy Toy.uv_both)
                      (main (mkArgs 4%float 5%Z "" "map2"))
                      Toy.two_selected)) = [].
Proof.
  eexists; eexists.
  eapply (main_user_uv_unknown (Toy.toy Toy.uv_both)
            (mkArgs 4%float 5%Z "" "map2") Toy.two_selected).
  - vm_compute; reflexivity.
  - right. split; [discriminate|].
    simpl. intros [H | []]; discriminate H.
Defined.

Lemma selecting_ls uv (w : world (Selecting.toy uv)) :
  exists r, exec (Selecting.toy uv) Ls w = (w, inr r)
            /\ or_empty r = Toy.selected w.
Proof. exists (Some (Toy.selected w)); split; reflexivity. Qed.

Lemma selecting_select uv sel (w0 w1 : world (Selecting.toy uv)) u :
  exec (Selecting.toy uv) (Select sel) w0 = (w1, inr u) ->
  Toy.selected w1 = sel.
Proof. simpl. intro E; injection E as <- _. reflexivity. Qed.

(** A complete run on the host whose bind changes the selection: the bind
    leaves the new skin cluster selected, the weight copy is reached, the
    last command is the select of the two objects selected at entry, and
    they are the selection again when [main] returns. *)
Lemma main_restores_selection_witness :
  Toy.selected
    (world_of (run (Selecting.toy Toy.uv_both) (main_bind default_args)
                 Toy.two_selected)) = ["|dstSkin"]
  /\ (exists t0 kw,
         trace_of (run (Selecting.toy Toy.uv_both) (main default_args)
                     Toy.two_selected)
         = t0 ++ [CopySkinWeights kw; Select ["|src"; "|dst"]]
         /\ filter is_select t0 = [])
  /\ Toy.selected
       (world_of (run (Selecting.toy Toy.uv_both) (main default_args)
                    Toy.two_selected)) = ["|src"; "|dst"].
Proof.
  split; [vm_compute; reflexivity|].
  set (h := Selecting.toy Toy.uv_both).
  set (R := run h (main default_args) Toy.two_selected).
  assert (Hrun : run h (main default_args) Toy.two_selected
                 = (trace_of R, world_of R, outcome_of R))
    by (vm_compute; reflexivity).
  destruct (main_restores_selection h Toy.selected default_args
              Toy.two_selected (world_of R) (trace_of R) (outcome_of R)
              (selecting_ls Toy.uv_both) (selecting_select Toy.uv_both) Hrun)
    as [Hcopy _].
  destruct Hcopy as [(t0 & kw & e & _ & Ho) | (t0 & kw & Ht & Hf & Hsel)].
  - exists (copy_kwargs_of (PStr "|srcSkin") (PStr "|dstSkin")
              (PStr "map1") (PStr "map1")).
    vm_compute. repeat ((left; reflexivity) || right).
  - vm_compute in Ho. discriminate Ho.
  - split.
    + exists t0, kw. split; [exact Ht | exact Hf].
    + apply Hsel. vm_compute; reflexivity.
Defined.

(** C8 as stated fails in its second half: on the host whose bind changes
    the selection (and which meets the two conditions on the selection query
    and the select command), with no UV set on the source mesh, [main]
    warns and returns before the weight copy; it has issued no select
    command, and the selection it leaves is the skin cluster the bind made,
    not the two objects selected at entry. *)
Lemma main_early_return_leaves_selection_changed :
  (forall w0 : world (Selecting.toy Toy.uv_destination_only),
      exists r,
        exec (Selecting.toy Toy.uv_destination_only) Ls w0 = (w0, inr r)
        /\ or_empty r = Toy.selected w0)
  /\ (forall sel (w0 w1 : world (Selecting.toy Toy.uv_destination_only)) u,
         exec (Selecting.toy Toy.uv_destination_only) (Select sel) w0
         = (w1, inr u) ->
         Toy.selected w1 = sel)
  /\ outcome_of (run (Selecting.toy Toy.uv_destination_only)
                   (main default_args) Toy.two_selected) = Returned tt
  /\ filter is_message
       (trace_of (run (Selecting.toy Toy.uv_destination_only)
                    (main default_args) Toy.two_selected))
     = [Warning sourceMessage]
  /\ filter is_copy
       (trace_of (run (Selecting.toy Toy.uv_destination_only)
                    (main default_args) Toy.two_selected)) = []
  /\ filter is_select
       (trace_of (run (Selecting.toy Toy.uv_destination_only)
                    (main default_args) Toy.two_selected)) = []
  /\ Toy.selected Toy.two_selected = ["|src"; "|dst"]
  /\ Toy.selected
       (world_of (run (Selecting.toy Toy.uv_destination_only)
                    (main default_args) Toy.two_selected)) = ["|dstSkin"]
  /\ Toy.selected
       (world_of (run (Selecting.toy Toy.uv_destination_only)
                    (main default_args) Toy.two_selected))
     <> Toy.selected Toy.two_selected.
Proof.
  split; [apply selecting_ls|]. split; [apply selecting_select|].
  split; [vm_compute; reflexivity|].
  split; [vm_compute; reflexivity|].
  split; [vm_compute; reflexivity|].
  split; [vm_compute; reflexivity|].
  split; [reflexivity|].
  split; [vm_compute; reflexivity|].
  vm_compute. discriminate.
Qed.

(** The unbound destination of the small host: a shape is found, no skin
    cluster is connected to it, and [getSkinCluster] returns [None]. *)
Lemma helper_results_witness :
  run (Toy.toy Toy.uv_both) (getSkinCluster "|dst") Toy.two_selected
  = (NodeType "|dst" :: ListRelatives "|dst"
       :: map ListConnections ("|dstShape" :: []),
     Toy.two_selected, Returned PNone)
  /\ run (Toy.toy Toy.uv_both) (getInfluence "|dst") Toy.two_selected
     = (NodeType "|dst" :: ListRelatives "|dst"
          :: map ListConnections ("|dstShape" :: []),
        Toy.two_selected, Returned []).
Proof.
  destruct (helper_results (Toy.toy Toy.uv_both))
    as (_ & Hinfluence & _ & _ & Hnone & _).
  assert (Hsc :
    run (Toy.toy Toy.uv_both) (getSkinCluster "|dst") Toy.two_selected
    = (NodeType "|dst" :: ListRelatives "|dst"
         :: map ListConnections ("|dstShape" :: []),
       Toy.two_selected, Returned PNone)).
  { apply (Hnone "|dst" Toy.two_selected Toy.two_selected Toy.two_selected
             (Some "transform") (Some ["|dstShape"]) "|dstShape" []).
    - apply toy_inert_query.
    - reflexivity.
    - reflexivity.
    - reflexivity.
    - reflexivity.
    - intros o [<- | []]. exists None. split; reflexivity. }
  split; [exact Hsc|].
  apply (Hinfluence "|dst" _ _ _ PNone); [discriminate | exact Hsc
                                         | reflexivity].
Defined.

(** ** More on the helper functions *)

Lemma inert_exec h (c : cmd) (w : world h) v :
  inert h is_query -> is_query c = true ->
  snd (exec h c w) = inr v -> exec h c w = (w, inr v).
Proof.
  intros Hq Hc Hv. pose proof (Hq c w Hc) as Hw.
  destruct (exec h c w) as [w1 s0]; simpl in *. congruence.
Qed.

(** [getUVSet], lines 78-105: for the empty name no host command is issued
    and the result is the empty list; for a transform the UV sets are asked
    of the list of its shapes, also when that list is empty; for any other
    name they are asked of the name itself; an answer [None] becomes the
    empty list. *)
Theorem getUVSet_cases h :
  (forall w : world h, run h (getUVSet "") w = ([], w, Returned []))
  /\ (forall name (w w1 w2 w3 : world h) ty r u,
         name <> "" ->
         exec h (NodeType name) w = (w1, inr ty) ->
         py_eq ty "transform" = true ->
         exec h (ListRelatives name) w1 = (w2, inr r) ->
         exec h (PolyUVSet (PList (or_empty r))) w2 = (w3, inr u) ->
         run h (getUVSet name) w
         = ([NodeType name; ListRelatives name;
             PolyUVSet (PList (or_empty r))], w3, Returned (or_empty u)))
  /\ (forall name (w w1 w3 : world h) ty u,
         name <> "" ->
         exec h (NodeType name) w = (w1, inr ty) ->
         py_eq ty "transform" = false ->
         exec h (PolyUVSet (PStr name)) w1 = (w3, inr u) ->
         run h (getUVSet name) w
         = ([NodeType name; PolyUVSet (PStr name)], w3,
            Returned (or_empty u))).
Proof.
  split; [|split].
  - reflexivity.
  - intros name w w1 w2 w3 ty r u Hname H0 Hty H1 H2.
    apply String.eqb_neq in Hname.
    unfold getUVSet. cbn [truthy]. rewrite Hname. cbn [negb].
    rewrite run_bind, run_call, H0. cbn [and_then]. rewrite Hty.
    rewrite run_bind, run_bind, run_call, H1. cbn [and_then run].
    rewrite run_bind, run_call, H2. reflexivity.
  - intros name w w1 w3 ty u Hname H0 Hty H2.
    apply String.eqb_neq in Hname.
    unfold getUVSet. cbn [truthy]. rewrite Hname. cbn [negb].
    rewrite run_bind, run_call, H0. cbn [and_then]. rewrite Hty.
    rewrite run_bind. cbn [and_then run].
    rewrite run_bind, run_call, H2. reflexivity.
Qed.

Lemma getUVSet_cases_witness :
  run (Static.static Static.group) (getUVSet "grp") []
  = ([NodeType "grp"; ListRelatives "grp";
      PolyUVSet (PList (or_empty (Some ["a"; "b"; "c"])))],
     [], Returned (or_empty (Some ["map1"; "map2"])))
  /\ run (Static.static Static.group) (getUVSet "body") []
     = ([NodeType "body"; PolyUVSet (PStr "body")], [],
        Returned (or_empty None)).
Proof.
  destruct (getUVSet_cases (Static.static Static.group))
    as (_ & Htransform & Hother).
  split.
  - apply (Htransform "grp" [] [] [] [] (Some "transform")); try reflexivity.
    discriminate.
  - apply (Hother "body" [] [] [] (Some "mesh")); try reflexivity.
    discriminate.
Defined.

(** The loop of [getSkinCluster] stops at the first object that has a skin
    cluster connected. *)
Lemma find_connections_first h pre s post results0 (w : world h) c x xs :
  inert h is_query ->
  (forall o, In o pre ->
     exists c0, snd (exec h (ListConnections o) w) = inr c0
                /\ or_empty c0 = []) ->
  snd (exec h (ListConnections s) w) = inr c ->
  or_empty c = x :: xs ->
  run h (find_connections (pre ++ s :: post) results0) w
  = (map ListConnections (pre ++ [s]), w, Returned (x :: xs)).
Proof.
  intros Hq Hpre Hs Hc. revert results0.
  induction pre as [|o pre IH]; intro results0; cbn [app find_connections].
  - rewrite run_bind, run_call,
      (inert_exec h (ListConnections s) w c Hq eq_refl Hs).
    cbn [and_then]. rewrite Hc. reflexivity.
  - destruct (Hpre o (or_introl eq_refl)) as (c0 & Ho & Hc0).
    rewrite run_bind, run_call,
      (inert_exec h (ListConnections o) w c0 Hq eq_refl Ho).
    cbn [and_then]. rewrite Hc0. cbn [nonempty].
    rewrite IH; [reflexivity|]. intros o' Hin. apply Hpre. now right.
Qed.

(** Every command of the loop is a connection query on one of the objects
    it is given. *)
Lemma find_connections_trace h names results0 (w : world h) :
  Forall (fun c => exists o, c = ListConnections o /\ In o names)
    (trace_of (run h (find_connections names results0) w)).
Proof.
  revert results0 w; induction names as [|o rest IH]; intros results0 w.
  - constructor.
  - cbn [find_connections]. rewrite run_bind, run_call.
    destruct (exec h (ListConnections o) w) as [w1 [e|v]]; cbn [and_then].
    + repeat constructor. exists o; split; [reflexivity | now left].
    + destruct (nonempty (or_empty v)).
      * simpl. repeat constructor. exists o; split; [reflexivity | now left].
      * specialize (IH (or_empty v) w1).
        destruct (run h (find_connections rest (or_empty v)) w1)
          as [[t w2] o2]. unfold trace_of in *; simpl in *.
        constructor.
        -- exists o; split; [reflexivity | now left].
        -- eapply Forall_impl; [|exact IH].
           intros c (o' & -> & Hin). exists o'; split; [reflexivity|].
           now right.
Qed.

Lemma chars_length o s : In o (chars s) -> String.length o = 1.
Proof.
  induction s as [|c s IH]; simpl; [intros []|].
  intros [<- | Hin]; [reflexivity | auto].
Qed.

Lemma getSkinCluster_found h name (w w1 w2 : world h) ty r pre s post c x xs :
  inert h is_query ->
  exec h (NodeType name) w = (w1, inr ty) ->
  py_eq ty "transform" = true ->
  exec h (ListRelatives name) w1 = (w2, inr r) ->
  or_empty r = pre ++ s :: post ->
  (forall o, In o pre ->
     exists c0, snd (exec h (ListConnections o) w2) = inr c0
                /\ or_empty c0 = []) ->
  snd (exec h (ListConnections s) w2) = inr c ->
  or_empty c = x :: xs ->
  run h (getSkinCluster name) w
  = (NodeType name :: ListRelatives name :: map ListConnections (pre ++ [s]),
     w2, Returned (PStr x)).
Proof.
  intros Hq H0 Hty H1 Hr Hpre Hs Hc.
  unfold getSkinCluster.
  rewrite run_bind, run_call, H0. cbn [and_then]. rewrite Hty.
  rewrite run_bind, run_bind, run_call, H1. cbn [and_then run].
  rewrite Hr. cbn [app py_iter].
  assert (Ht : truthy (PList (pre ++ s :: post)) = true)
    by (destruct pre; reflexivity).
  rewrite Ht. cbn [negb].
  rewrite run_bind,
    (find_connections_first h pre s post [] w2 c x xs Hq Hpre Hs Hc).
  cbn [and_then nonempty negb]. rewrite run_bind. unfold index. simpl.
  rewrite !app_nil_r. reflexivity.
Qed.

(** [getSkinCluster] on a transform, lines 20-47, the queries leaving the
    scene alone: the result is the first skin cluster connected to the first
    shape that has one; the shapes before it are queried, the shapes after
    it are not. *)
Theorem getSkinCluster_first_bound_shape h name (w w1 w2 : world h)
  ty r pre s post c x xs :
  inert h is_query ->
  exec h (NodeType name) w = (w1, inr ty) ->
  py_eq ty "transform" = true ->
  exec h (ListRelatives name) w1 = (w2, inr r) ->
  or_empty r = pre ++ s :: post ->
  (forall o, In o pre ->
     exists c0, snd (exec h (ListConnections o) w2) = inr c0
                /\ or_empty c0 = []) ->
  snd (exec h (ListConnections s) w2) = inr c ->
  or_empty c = x :: xs ->
  run h (getSkinCluster name) w
  = (NodeType name :: ListRelatives name :: map ListConnections (pre ++ [s]),
     w2, Returned (PStr x))
  /\ (forall o, In o post -> ~ In o (pre ++ [s]) ->
        ~ In (ListConnections o)
            (trace_of (run h (getSkinCluster name) w))).
Proof.
  intros Hq H0 Hty H1 Hr Hpre Hs Hc.
  rewrite (getSkinCluster_found h name w w1 w2 ty r pre s post c x xs
             Hq H0 Hty H1 Hr Hpre Hs Hc).
  split; [reflexivity|].
  intros o _ Hnot Hin. unfold trace_of in Hin; simpl in Hin.
  destruct Hin as [Hin | [Hin | Hin]]; try discriminate Hin.
  apply in_map_iff in Hin. destruct Hin as (o' & E & Hin).
  injection E as ->. exact (Hnot Hin).
Qed.

Lemma getSkinCluster_first_bound_shape_witness :
  run (Static.static Static.group) (getSkinCluster "grp") []
  = (NodeType "grp" :: ListRelatives "grp"
       :: map ListConnections (["a"] ++ ["b"]),
     [], Returned (PStr "skinB"))
  /\ (forall o, In o ["c"] -> ~ In o (["a"] ++ ["b"]) ->
        ~ In (ListConnections o)
            (trace_of (run (Static.static Static.group)
                         (getSkinCluster "grp") []))).
Proof.
  apply (getSkinCluster_first_bound_shape (Static.static Static.group)
           "grp" [] [] [] (Some "transform") (Some ["a"; "b"; "c"])
           ["a"] "b" ["c"] (Some ["skinB"; "skinB2"]) "skinB" ["skinB2"]).
  - intros c w Hc; destruct c; try discriminate Hc; reflexivity.
  - reflexivity.
  - reflexivity.
  - reflexivity.
  - reflexivity.
  - intros o [<- | []]. exists None. split; reflexivity.
  - reflexivity.
  - reflexivity.
Defined.

(** [getInfluence] on a transform, lines 62-75 with [getSkinCluster]: the
    influences returned are those the host gives for the first skin cluster
    of the first bound shape (the empty list when the host answers
    [None]). *)
Theorem getInfluence_of_transform h name (w w1 w2 w3 : world h)
  ty r pre s post c x xs q :
  inert h is_query ->
  name <> "" ->
  exec h (NodeType name) w = (w1, inr ty) ->
  py_eq ty "transform" = true ->
  exec h (ListRelatives name) w1 = (w2, inr r) ->
  or_empty r = pre ++ s :: post ->
  (forall o, In o pre ->
     exists c0, snd (exec h (ListConnections o) w2) = inr c0
                /\ or_empty c0 = []) ->
  snd (exec h (ListConnections s) w2) = inr c ->
  or_empty c = x :: xs ->
  x <> "" ->
  exec h (SkinClusterQuery (PStr x)) w2 = (w3, inr q) ->
  run h (getInfluence name) w
  = ((NodeType name :: ListRelatives name
        :: map ListConnections (pre ++ [s]))
     ++ [SkinClusterQuery (PStr x)],
     w3, Returned (or_empty q)).
Proof.
  intros Hq Hname H0 Hty H1 Hr Hpre Hs Hc Hx Hi.
  apply String.eqb_neq in Hname. apply String.eqb_neq in Hx.
  unfold getInfluence. cbn [truthy]. rewrite Hname. cbn [negb].
  rewrite (run_bind_returned _ _ _ _ _ _
             (getSkinCluster_found h name w w1 w2 ty r pre s post c x xs
                Hq H0 Hty H1 Hr Hpre Hs Hc)).
  cbn [truthy]. rewrite Hx. cbn [negb].
  rewrite run_bind, run_call, Hi. reflexivity.
Qed.

Lemma getInfluence_of_transform_witness :
  run (Static.static Static.group) (getInfluence "grp") []
  = ((NodeType "grp" :: ListRelatives "grp"
        :: map ListConnections (["a"] ++ ["b"]))
     ++ [SkinClusterQuery (PStr "skinB")],
     [], Returned (or_empty (Some ["joint1"; "joint2"]))).
Proof.
  apply (getInfluence_of_transform (Static.static Static.group)
           "grp" [] [] [] [] (Some "transform") (Some ["a"; "b"; "c"])
           ["a"] "b" ["c"] (Some ["skinB"; "skinB2"]) "skinB" ["skinB2"]).
  - intros c w Hc; destruct c; try discriminate Hc; reflexivity.
  - discriminate.
  - reflexivity.
  - reflexivity.
  - reflexivity.
  - reflexivity.
  - intros o [<- | []]. exists None. split; reflexivity.
  - reflexivity.
  - reflexivity.
  - discriminate.
  - reflexivity.
Defined.

Lemma find_connections_head h o rest results0 (w : world h) :
  exists t,
    trace_of (run h (find_connections (o :: rest) results0) w)
    = ListConnections o :: t.
Proof.
  cbn [find_connections]. rewrite run_bind, run_call.
  destruct (exec h (ListConnections o) w) as [w1 [e|v]]; cbn [and_then].
  - exists []; reflexivity.
  - destruct (run h (if nonempty (or_empty v) then Ret (or_empty v)
                     else find_connections rest (or_empty v)) w1)
      as [[t w2] o2].
    exists t; reflexivity.
Qed.

(** [getSkinCluster] on a name that is not a transform, lines 20-40: [name]
    is still a string when the loop iterates over it, so the connections are
    asked of its characters, one by one and starting with the first, never
    of an object with a longer name. *)
Theorem getSkinCluster_iterates_characters h name (w w1 : world h)
  ty ch rest :
  exec h (NodeType name) w = (w1, inr ty) ->
  py_eq ty "transform" = false ->
  name = String ch rest ->
  (exists t,
      trace_of (run h (getSkinCluster name) w)
      = NodeType name :: ListConnections (String ch EmptyString) :: t)
  /\ (forall o,
         In (ListConnections o) (trace_of (run h (getSkinCluster name) w)) ->
         In o (chars name) /\ String.length o = 1).
Proof.
  intros H0 Hty Hname.
  assert (Ht : exists tl,
    trace_of (run h (getSkinCluster name) w) = NodeType name :: tl
    /\ tl = trace_of (run h (find_connections (chars name) []) w1)).
  { unfold getSkinCluster.
    rewrite run_bind, run_call, H0. cbn [and_then]. rewrite Hty.
    rewrite run_bind. cbn [and_then run]. subst name.
    cbn [truthy String.eqb negb py_iter]. rewrite run_bind.
    destruct (run h (find_connections (chars (String ch rest)) []) w1)
      as [[tl w2] [results|e]]; cbn [and_then].
    - destruct (negb (nonempty results)).
      + exists tl. simpl. rewrite app_nil_r. auto.
      + rewrite run_bind. unfold index.
        destruct (nth_error results 0); simpl; exists tl;
          rewrite ?app_nil_r; auto.
    - exists tl. auto. }
  destruct Ht as (tl & Ht & Htl). rewrite Ht. split.
  - subst name. cbn [chars] in Htl.
    destruct (find_connections_head h (String ch EmptyString) (chars rest)
                [] w1) as (t & Hhead).
    exists t. rewrite Htl, Hhead. reflexivity.
  - intros o [Hin | Hin]; [discriminate Hin|].
    pose proof (find_connections_trace h (chars name) [] w1) as Hall.
    rewrite <- Htl in Hall. rewrite Forall_forall in Hall.
    destruct (Hall _ Hin) as (o' & E & Ho'). injection E as ->.
    split; [exact Ho' | exact (chars_length _ _ Ho')].
Qed.

Lemma getSkinCluster_iterates_characters_witness :
  (exists t,
      trace_of (run (Static.static Static.group) (getSkinCluster "body") [])
      = NodeType "body" :: ListConnections "b" :: t)
  /\ (forall o,
         In (ListConnections o)
           (trace_of (run (Static.static Static.group)
                        (getSkinCluster "body") [])) ->
         In o (chars "body") /\ String.length o = 1).
Proof.
  apply (getSkinCluster_iterates_characters (Static.static Static.group)
           "body" [] [] (Some "mesh") "b"%char "ody").
  - reflexivity.
  - reflexivity.
  - reflexivity.
Defined.

Lemma yields_bind {A B} (Q1 : A -> Prop) (Q : B -> Prop)
  (p : prog A) (f : A -> prog B) :
  yields Q1 p -> (forall a, Q1 a -> yields Q (f a)) -> yields Q (bind p f).
Proof.
  intros Hp Hf; induction Hp; simpl; auto; constructor; auto.
Qed.

Lemma yields_any {A} (p : prog A) : yields (fun _ => True) p.
Proof. induction p; constructor; auto. Qed.

Lemma yields_run h {A} (Q : A -> Prop) (p : prog A) (w w' : world h) t v :
  yields Q p -> run h p w = (t, w', Returned v) -> Q v.
Proof.
  intro Hp; revert w t; induction Hp as [a Ha|e|c k Hk IH]; intros w t;
    simpl.
  - intro E; injection E as _ _ <-; exact Ha.
  - discriminate.
  - destruct (exec h c w) as [w1 [e|x]]; [discriminate|].
    destruct (run h (k x) w1) as [[t1 w2] o] eqn:E1.
    intro E; injection E as _ <- ->. eapply IH; exact E1.
Qed.

Lemma issues_lookup_find_connections names results :
  issues is_lookup (find_connections names results).
Proof.
  revert results; induction names as [|o rest IH]; intro results; simpl.
  - constructor.
  - constructor; [reflexivity|]. intro v.
    destruct (nonempty (or_empty v)); [constructor | apply IH].
Qed.

Lemma issues_lookup_getSkinCluster name :
  issues is_lookup (getSkinCluster name).
Proof.
  unfold getSkinCluster.
  apply issues_bind; [apply issues_call; reflexivity | intro ty].
  apply issues_bind.
  - destruct (py_eq ty "transform"); [|constructor].
    apply issues_bind; [apply issues_call; reflexivity | intro; constructor].
  - intro n. destruct (negb (truthy n)); [constructor|].
    apply issues_bind; [apply issues_lookup_find_connections | intro results].
    destruct (negb (nonempty results)); [constructor|].
    apply issues_bind; [apply issues_index | intro; constructor].
Qed.

Lemma yields_getSkinCluster name :
  yields (fun v => v = PList [] \/ v = PNone \/ exists s, v = PStr s)
    (getSkinCluster name).
Proof.
  unfold getSkinCluster.
  apply (yields_bind (fun _ => True)); [apply yields_any | intros ty _].
  apply (yields_bind (fun _ => True)); [apply yields_any | intros n _].
  destruct (negb (truthy n)); [constructor; auto|].
  apply (yields_bind (fun _ => True)); [apply yields_any | intros results _].
  destruct (negb (nonempty results)); [constructor; auto|].
  apply (yields_bind (fun _ => True)); [apply yields_any | intros r0 _].
  constructor. right; right. exists r0; reflexivity.
Qed.

(** [getInfluence], lines 62-73: the influence query is made at most once,
    as the last command, and only on a skin cluster name that is a non-empty
    string: never on [None], on a list or on the empty string. *)
Theorem getInfluence_queries_a_cluster h name (w : world h) sc :
  In (SkinClusterQuery sc) (trace_of (run h (getInfluence name) w)) ->
  (exists s, sc = PStr s /\ s <> "")
  /\ exists t,
       trace_of (run h (getInfluence name) w) = t ++ [SkinClusterQuery sc]
       /\ Forall (fun c => is_lookup c = true) t.
Proof.
  unfold getInfluence.
  destruct (negb (truthy (PStr name))); [intros []|].
  rewrite run_bind.
  pose proof (issues_run (h:=h) _ _ w (issues_lookup_getSkinCluster name))
    as Hlook.
  destruct (run h (getSkinCluster name) w) as [[t1 w1] [v|e]] eqn:Hsc;
    unfold trace_of in Hlook; simpl in Hlook; cbn [and_then].
  - assert (Hnot : ~ In (SkinClusterQuery sc) t1).
    { intro Hin. rewrite Forall_forall in Hlook.
      specialize (Hlook _ Hin). discriminate Hlook. }
    destruct (truthy v) eqn:Hv; cbn [negb].
    + assert (Hstr : exists s, v = PStr s /\ s <> "").
      { destruct (yields_run h _ _ _ _ _ _ (yields_getSkinCluster name) Hsc)
          as [-> | [-> | (s & ->)]]; try discriminate Hv.
        exists s; split; [reflexivity|].
        simpl in Hv. apply negb_true_iff, String.eqb_neq in Hv. exact Hv. }
      rewrite run_bind, run_call.
      destruct (exec h (SkinClusterQuery v) w1) as [w2 [e|x]];
        cbn [and_then]; simpl; rewrite ?app_nil_r; intro Hin;
        apply in_app_or in Hin; destruct Hin as [Hin | [Hin | []]];
        try contradiction; injection Hin as ->;
        (split; [exact Hstr | exists t1; split; [reflexivity | exact Hlook]]).
    + simpl. rewrite app_nil_r. intro Hin. contradiction.
  - intro Hin. exfalso. rewrite Forall_forall in Hlook.
    specialize (Hlook _ Hin). discriminate Hlook.
Qed.

Lemma getInfluence_queries_a_cluster_witness :
  (exists s, PStr "skinB" = PStr s /\ s <> "")
  /\ exists t,
       trace_of (run (Static.static Static.group) (getInfluence "grp") [])
       = t ++ [SkinClusterQuery (PStr "skinB")]
       /\ Forall (fun c => is_lookup c = true) t.
Proof.
  apply (getInfluence_queries_a_cluster (Static.static Static.group)
           "grp" [] (PStr "skinB")).
  vm_compute. do 4 right. left. reflexivity.
Defined.

(** [getSkinCluster], lines 18-47: whenever it returns, the value is the
    empty list, [None] or a string, never a non-empty list; the empty list
    is returned before any connection has been asked, [None] and the string
    only after at least one has. *)
Theorem getSkinCluster_result_forms h name (w w' : world h) t v :
  run h (getSkinCluster name) w = (t, w', Returned v) ->
  (v = PList [] /\ forall o, ~ In (ListConnections o) t)
  \/ ((v = PNone \/ exists s, v = PStr s)
      /\ exists o, In (ListConnections o) t).
Proof.
  intro E. unfold getSkinCluster in E.
  apply run_bind_inv in E. destruct E as (t1 & w1 & ty & ? & H0 & E & ->).
  apply run_call_inv in H0. destruct H0 as [_ ->].
  apply run_bind_inv in E. destruct E as (t2 & w2 & n & ? & Hn & E & ->).
  assert (Ht2 : forall o, ~ In (ListConnections o) t2).
  { destruct (py_eq ty "transform").
    - apply run_bind_inv in Hn.
      destruct Hn as (t3 & w3 & r & ? & Hr & Hn & ->).
      apply run_call_inv in Hr. destruct Hr as [_ ->].
      apply run_Ret_inv in Hn. destruct Hn as (-> & _ & _).
      intros o [Hin | []]; discriminate Hin.
    - apply run_Ret_inv in Hn. destruct Hn as (-> & _ & _). intros o []. }
  destruct (negb (truthy n)) eqn:Htruthy.
  - apply run_Ret_inv in E. destruct E as (-> & _ & ->).
    left. split; [reflexivity|].
    intros o Hin. rewrite app_nil_r in Hin.
    destruct Hin as [Hin | Hin]; [discriminate Hin | exact (Ht2 o Hin)].
  - apply run_bind_inv in E.
    destruct E as (t4 & w4 & results & ? & Hloop & E & ->).
    right. split.
    + destruct (negb (nonempty results)).
      * apply run_Ret_inv in E. destruct E as (_ & _ & ->). now left.
      * apply run_bind_inv in E.
        destruct E as (? & ? & r0 & ? & _ & E & _).
        apply run_Ret_inv in E. destruct E as (_ & _ & ->).
        right. exists r0; reflexivity.
    + assert (Hne : exists o rest, py_iter n = o :: rest).
      { destruct n as [|s|l]; simpl in Htruthy |- *; try discriminate.
        - destruct s; [discriminate|]. simpl. eauto.
        - destruct l; [discriminate|]. eauto. }
      destruct Hne as (o & rest & Hiter). rewrite Hiter in Hloop.
      destruct (find_connections_head h o rest [] w2) as (tl & Hhead).
      rewrite Hloop in Hhead. unfold trace_of in Hhead; simpl in Hhead.
      subst t4. exists o.
      apply in_or_app; right. apply in_or_app; right.
      apply in_or_app; left. now left.
Qed.

Lemma getSkinCluster_result_forms_witness :
  (PStr "skinB" = PList []
   /\ forall o,
        ~ In (ListConnections o)
            [NodeType "grp"; ListRelatives "grp"; ListConnections "a";
             ListConnections "b"])
  \/ ((PStr "skinB" = PNone \/ exists s, PStr "skinB" = PStr s)
      /\ exists o,
           In (ListConnections o)
             [NodeType "grp"; ListRelatives "grp"; ListConnections "a";
              ListConnections "b"]).
Proof.
  apply (getSkinCluster_result_forms (Static.static Static.group) "grp"
           [] []).
  vm_compute; reflexivity.
Defined.

(** ** The order of the commands of [main] *)

Lemma obeys_bind {A B} (Q1 : phase -> A -> Prop) (Q : phase -> B -> Prop)
  s (p : prog A) (f : A -> prog B) :
  obeys Q1 s p -> (forall s1 a, Q1 s1 a -> obeys Q s1 (f a)) ->
  obeys Q s (bind p f).
Proof.
  intros Hp Hf; induction Hp; simpl; auto.
  - constructor.
  - econstructor; eauto.
Qed.

Lemma obeys_run h {A} (Q : phase -> A -> Prop) s (p : prog A)
  (w : world h) :
  obeys Q s p ->
  exists s1,
    follow s (trace_of (run h p w)) = Some s1
    /\ forall v, outcome_of (run h p w) = Returned v -> Q s1 v.
Proof.
  intro Hp; revert w; induction Hp as [s a Ha|s e|s c k s1 Hc Hk IH];
    intro w; simpl.
  - exists s; split; [reflexivity|]. intros v E; injection E as <-; exact Ha.
  - exists s; split; [reflexivity|]. discriminate.
  - destruct (exec h c w) as [w1 [e|x]].
    + exists s1. unfold trace_of, outcome_of; simpl. rewrite Hc.
      split; [reflexivity | discriminate].
    + destruct (IH x w1) as (s2 & Hf & Hq).
      destruct (run h (k x) w1) as [[t w2] o].
      unfold trace_of, outcome_of in *; simpl in *. rewrite Hc.
      exists s2; split; assumption.
Qed.

(** A program of scene queries stays in its phase, before the copy. *)
Lemma obeys_scene_queries {A} (p : prog A) s :
  issues is_scene_query p ->
  s = Start \/ s = Unbound \/ s = Bound ->
  obeys (fun s1 _ => s1 = s) s p.
Proof.
  intros Hp Hs; induction Hp as [a|e|c k Hc Hk IH].
  - constructor; reflexivity.
  - constructor.
  - apply (obeys_Call _ s c k s); [|exact IH].
    destruct Hs as [-> | [-> | ->]]; destruct c; try discriminate Hc;
      reflexivity.
Qed.

Lemma issues_scene_getSkinCluster name :
  issues is_scene_query (getSkinCluster name).
Proof.
  apply (issues_weaken is_lookup); [|apply issues_lookup_getSkinCluster].
  intros c Hc; destruct c; try discriminate Hc; reflexivity.
Qed.

Lemma issues_scene_getInfluence name :
  issues is_scene_query (getInfluence name).
Proof.
  unfold getInfluence.
  destruct (negb (truthy (PStr name))); [constructor|].
  apply issues_bind; [apply issues_scene_getSkinCluster | intro sc].
  destruct (negb (truthy sc)); [constructor|].
  apply issues_bind; [apply issues_call; reflexivity | intro; constructor].
Qed.

Lemma issues_scene_getUVSet name : issues is_scene_query (getUVSet name).
Proof.
  unfold getUVSet.
  destruct (negb (truthy (PStr name))); [constructor|].
  apply issues_bind; [apply issues_call; reflexivity | intro ty].
  apply issues_bind.
  - destruct (py_eq ty "transform"); [|constructor].
    apply issues_bind; [apply issues_call; reflexivity | intro; constructor].
  - intro n.
    apply issues_bind; [apply issues_call; reflexivity | intro; constructor].
Qed.

Lemma obeys_main_bind a :
  obeys (fun s r => match r with
                    | Next _ => s = Bound
                    | Return_ => s = Reported
                    end) Entry (main_bind a).
Proof.
  unfold main_bind.
  apply (obeys_Call _ Entry Ls _ Start); [reflexivity | intro r].
  cbn [bind].
  destruct (List.length (or_empty r) <? 2)%nat.
  - apply (obeys_Call _ Start (Error selectMessage) _ Reported);
      [reflexivity | intros ?; simpl]. constructor; reflexivity.
  - apply (obeys_bind (fun s1 _ => s1 = Start)).
    { unfold index. destruct (nth_error (or_empty r) 0); constructor.
      reflexivity. }
    intros s1 so Hs; simpl in Hs; subst s1.
    apply (obeys_bind (fun s1 _ => s1 = Start)).
    { unfold index. destruct (nth_error (or_empty r) 1); constructor.
      reflexivity. }
    intros s1 do Hs; simpl in Hs; subst s1.
    apply (obeys_bind (fun s1 _ => s1 = Start)).
    { apply obeys_scene_queries; [apply issues_scene_getInfluence | auto]. }
    intros s1 si Hs; simpl in Hs; subst s1.
    apply (obeys_bind (fun s1 _ => s1 = Start)).
    { apply obeys_scene_queries; [apply issues_scene_getInfluence | auto]. }
    intros s1 di Hs; simpl in Hs; subst s1.
    apply (obeys_bind (fun s1 _ => s1 = Start \/ s1 = Unbound)).
    { destruct (nonempty di).
      - apply (obeys_Call _ Start (SkinClusterUnbind do) _ Unbound);
          [reflexivity | intros ?; simpl]. constructor; auto.
      - constructor; auto. }
    intros s1 _ Hs1.
    apply (obeys_bind (fun s1 _ => s1 = Bound)).
    { apply (obeys_Call _ s1 (SkinClusterBind _ _) _ Bound).
      - destruct Hs1 as [-> | ->]; reflexivity.
      - intros ?; simpl. constructor; reflexivity. }
    intros s2 _ Hs; simpl in Hs; subst s2.
    apply (obeys_bind (fun s1 _ => s1 = Bound)).
    { apply obeys_scene_queries; [apply issues_scene_getSkinCluster | auto]. }
    intros s2 ss Hs; simpl in Hs; subst s2.
    apply (obeys_bind (fun s1 _ => s1 = Bound)).
    { apply obeys_scene_queries; [apply issues_scene_getSkinCluster | auto]. }
    intros s2 ds Hs; simpl in Hs; subst s2.
    apply (obeys_bind (fun s1 _ => s1 = Bound)).
    { apply obeys_scene_queries; [apply issues_scene_getUVSet | auto]. }
    intros s2 su Hs; simpl in Hs; subst s2.
    apply (obeys_bind (fun s1 _ => s1 = Bound)).
    { apply obeys_scene_queries; [apply issues_scene_getUVSet | auto]. }
    intros s2 du Hs; simpl in Hs; subst s2.
    constructor; reflexivity.
Qed.

Lemma obeys_main_copy a l :
  obeys (fun s r => match r with
                    | Next _ => s = Reselected
                    | Return_ => s = Reported
                    end) Bound (main_copy a l).
Proof.
  destruct (main_copy_shape a l) as [(msg & _ & ->) | [-> | (kw & ->)]].
  - apply (obeys_Call _ Bound (Warning msg) _ Reported);
      [reflexivity | intros ?; simpl]. constructor; reflexivity.
  - constructor.
  - apply (obeys_Call _ Bound (CopySkinWeights kw) _ Copied);
      [reflexivity | intros ?; simpl].
    apply (obeys_Call _ Copied (Select (selection l)) _ Reselected);
      [reflexivity | intros ?; simpl]. constructor; reflexivity.
Qed.

Lemma obeys_main a :
  obeys (fun s _ => s = Reselected \/ s = Reported) Entry (main a).
Proof.
  unfold main, body, bindf.
  apply (obeys_bind (fun s r => match r with
                                | Next _ => s = Reselected
                                | Return_ => s = Reported
                                end)).
  - apply (obeys_bind (fun s r => match r with
                                  | Next _ => s = Bound
                                  | Return_ => s = Reported
                                  end)); [apply obeys_main_bind|].
    intros s [l|] Hs.
    + subst s. apply obeys_main_copy.
    + constructor; exact Hs.
  - intros s [u|] Hs; constructor; auto.
Qed.

Lemma follow_terminal s t s1 :
  s = Reselected \/ s = Reported -> follow s t = Some s1 -> t = [].
Proof.
  intros Hs. destruct t as [|c t]; [reflexivity|].
  simpl. destruct Hs as [-> | ->]; destruct c; discriminate.
Qed.

Lemma protocol_message s c s1 :
  protocol s c = Some s1 -> is_message c = true -> s1 = Reported.
Proof.
  destruct s, c; simpl; intros E Hm; try discriminate; congruence.
Qed.

Lemma follow_messages s t s1 :
  follow s t = Some s1 ->
  filter is_message t = []
  \/ exists t0 m,
       t = t0 ++ [m] /\ is_message m = true /\ filter is_message t0 = [].
Proof.
  revert s; induction t as [|c t IH]; intros s E; [now left|].
  simpl in E. destruct (protocol s c) as [s2|] eqn:Hp; [|discriminate].
  destruct (is_message c) eqn:Hm.
  - right. pose proof (protocol_message _ _ _ Hp Hm) as ->.
    rewrite (follow_terminal Reported t s1 (or_intror eq_refl) E).
    exists [], c. auto.
  - destruct (IH s2 E) as [Hnone | (t0 & m & -> & Hmm & Ht0)].
    + left. simpl. rewrite Hm. exact Hnone.
    + right. exists (c :: t0), m. repeat split; auto.
      simpl. rewrite Hm. exact Ht0.
Qed.

Lemma protocol_rank s c s1 :
  protocol s c = Some s1 ->
  if is_edit c
  then phase_rank s < phase_rank s1 /\ edit_rank c = phase_rank s1
  else phase_rank s <= phase_rank s1.
Proof.
  destruct s, c; simpl; intro E; try discriminate;
    injection E as <-; simpl; lia.
Qed.

Lemma follow_edits s t s1 :
  follow s t = Some s1 ->
  StronglySorted lt (map edit_rank (filter is_edit t))
  /\ Forall (fun r => phase_rank s < r) (map edit_rank (filter is_edit t)).
Proof.
  revert s; induction t as [|c t IH]; intros s E.
  - split; constructor.
  - simpl in E. destruct (protocol s c) as [s2|] eqn:Hp; [|discriminate].
    destruct (IH s2 E) as [Hsorted Hall].
    pose proof (protocol_rank _ _ _ Hp) as Hr.
    simpl. destruct (is_edit c); simpl.
    + destruct Hr as [Hlt Heq]. split.
      * constructor; [exact Hsorted|]. rewrite Heq. exact Hall.
      * constructor; [lia|].
        eapply Forall_impl; [|exact Hall]. intros r Hr; simpl in Hr. lia.
    + split; [exact Hsorted|].
      eapply Forall_impl; [|exact Hall]. intros r Hr'; simpl in Hr'. lia.
Qed.

Lemma follow_copy_after_bind s t s1 kw :
  follow s t = Some s1 ->
  s = Entry \/ s = Start \/ s = Unbound ->
  In (CopySkinWeights kw) t ->
  exists objs k, In (SkinClusterBind objs k) t.
Proof.
  revert s; induction t as [|c t IH]; intros s E Hs Hin; [destruct Hin|].
  simpl in E. destruct (protocol s c) as [s2|] eqn:Hp; [|discriminate].
  destruct (is_bind c) eqn:Hb.
  - destruct c; try discriminate Hb. exists objects, kw0. now left.
  - assert (Hcases : (s2 = Entry \/ s2 = Start \/ s2 = Unbound)
                     \/ s2 = Reported).
    { destruct Hs as [-> | [-> | ->]]; destruct c; simpl in Hp;
        try discriminate; injection Hp as <-; auto. }
    assert (Hc : c <> CopySkinWeights kw).
    { intros ->. destruct Hs as [-> | [-> | ->]]; discriminate Hp. }
    destruct Hin as [Hin | Hin]; [congruence|].
    destruct Hcases as [Hs2 | ->].
    + destruct (IH s2 E Hs2 Hin) as (objs & k & Hin').
      exists objs, k. now right.
    + rewrite (follow_terminal Reported t s1 (or_intror eq_refl) E) in Hin.
      destruct Hin.
Qed.

Lemma follow_select_after_copy s t s1 sel :
  follow s t = Some s1 ->
  s <> Copied ->
  In (Select sel) t ->
  exists pre kw, t = pre ++ [CopySkinWeights kw; Select sel].
Proof.
  revert s; induction t as [|c t IH]; intros s E Hs Hin; [destruct Hin|].
  simpl in E. destruct (protocol s c) as [s2|] eqn:Hp; [|discriminate].
  assert (Hc : c <> Select sel).
  { intros ->. destruct s; try discriminate Hp. congruence. }
  destruct Hin as [Hin | Hin]; [congruence|].
  destruct (Nat.eqb (phase_rank s2) 3) eqn:Hrank.
  - assert (s2 = Copied) by (destruct s2; try discriminate; reflexivity).
    subst s2.
    assert (exists kw, c = CopySkinWeights kw) as (kw & ->).
    { destruct s, c; simpl in Hp; try discriminate; eauto; congruence. }
    destruct t as [|c2 t2]; [destruct Hin|].
    simpl in E. destruct c2; try discriminate E. simpl in E.
    pose proof (follow_terminal Reselected t2 s1 (or_introl eq_refl) E)
      as ->.
    destruct Hin as [Hin | []]. injection Hin as ->.
    exists [], kw. reflexivity.
  - assert (Hs2 : s2 <> Copied) by (intros ->; discriminate Hrank).
    destruct (IH s2 E Hs2 Hin) as (pre & kw & ->).
    exists (c :: pre), kw. reflexivity.
Qed.

(** [main], lines 129-202: in every run, whatever the host answers or
    raises, the commands follow the automaton [protocol] from its entry: the
    selection query first and only once, the unbind if any before the bind,
    the weight copy only after the bind and immediately followed by the
    reselection, an error only before any change and a warning only between
    the bind and the copy; and [main] returns only after the reselection or
    after a message. *)
Theorem main_follows_protocol h a (w : world h) :
  exists s,
    follow Entry (trace_of (run h (main a) w)) = Some s
    /\ (outcome_of (run h (main a) w) = Returned tt ->
        s = Reselected \/ s = Reported).
Proof.
  destruct (obeys_run h _ Entry (main a) w (obeys_main a)) as (s & Hf & Hq).
  exists s. split; [exact Hf|]. intro Ho. exact (Hq tt Ho).
Qed.

(** [main], lines 131, 170, 174, 184 and 188: a run issues at most one
    error or warning, and when it issues one this is its last command. *)
Theorem main_reports_once h a (w : world h) :
  filter is_message (trace_of (run h (main a) w)) = []
  \/ exists t0 m,
       trace_of (run h (main a) w) = t0 ++ [m]
       /\ is_message m = true
       /\ filter is_message t0 = [].
Proof.
  destruct (obeys_run h _ Entry (main a) w (obeys_main a)) as (s & Hf & _).
  exact (follow_messages _ _ _ Hf).
Qed.

(** [main], lines 143, 157, 193 and 202: in every run the scene-changing
    commands come in the order unbind, bind, weight copy, select, each at
    most once; a weight copy is preceded by a bind, and a select comes
    immediately after a weight copy as the last command. *)
Theorem main_edits_in_order h a (w : world h) :
  StronglySorted lt
    (map edit_rank (filter is_edit (trace_of (run h (main a) w))))
  /\ (forall kw,
         In (CopySkinWeights kw) (trace_of (run h (main a) w)) ->
         exists objs k,
           In (SkinClusterBind objs k) (trace_of (run h (main a) w)))
  /\ (forall sel,
         In (Select sel) (trace_of (run h (main a) w)) ->
         exists pre kw,
           trace_of (run h (main a) w)
           = pre ++ [CopySkinWeights kw; Select sel]).
Proof.
  destruct (obeys_run h _ Entry (main a) w (obeys_main a)) as (s & Hf & _).
  split; [exact (proj1 (follow_edits _ _ _ Hf))|]. split.
  - intros kw Hin.
    exact (follow_copy_after_bind _ _ _ kw Hf (or_introl eq_refl) Hin).
  - intros sel Hin.
    apply (follow_select_after_copy _ _ _ sel Hf); [discriminate | exact Hin].
Qed.

(** ** The second part of [main], decided *)

(** What lines 165-191 decide, by the UV set each mesh contributes. *)
Lemma main_copy_decision a l :
  (resolved_uv (userSourceUVSet a) (sourceUVSet l) = None
   /\ main_copy a l = warn_and_return sourceMessage)
  \/ exists su,
       resolved_uv (userSourceUVSet a) (sourceUVSet l) = Some su
       /\ ((((userDestinationUVSet a <> ""
              /\ ~ In (userDestinationUVSet a) (destinationUVSet l))
             \/ su = "")
            /\ main_copy a l = warn_and_return destinationMessage)
           \/ (su <> ""
               /\ userDestinationUVSet a = ""
               /\ destinationUVSet l = []
               /\ main_copy a l = Throw IndexError)
           \/ (su <> ""
               /\ exists du,
                    resolved_uv (userDestinationUVSet a)
                      (destinationUVSet l) = Some du
                    /\ main_copy a l
                       = copy_and_select
                           (copy_kwargs_of (sourceSkin l) (destinationSkin l)
                              (PStr su) (PStr du))
                           (selection l))).
Proof.
  destruct (resolved_uv (userSourceUVSet a) (sourceUVSet l)) as [su|] eqn:Hs.
  - right. exists su. split; [reflexivity|].
    destruct (String.eqb_spec su "") as [Hsu | Hsu].
    + (* line 187 fires, if line 184 has not *)
      left. split; [now right|]. subst su.
      unfold resolved_uv in Hs.
      destruct (userSourceUVSet a =? "") eqn:Hus;
        destruct (py_in (userSourceUVSet a) (sourceUVSet l)) eqn:His;
        destruct (userDestinationUVSet a =? "") eqn:Hud;
        destruct (py_in (userDestinationUVSet a) (destinationUVSet l))
          eqn:Hid;
        destruct (sourceUVSet l) as [|x xs] eqn:Hsl;
        destruct (destinationUVSet l) as [|y ys] eqn:Hdl;
        simpl in Hs; try discriminate;
        try (injection Hs as Hs; subst);
        try (apply String.eqb_neq in Hus; congruence);
        main_copy_cases a l; reflexivity.
    + destruct (resolved_uv (userDestinationUVSet a) (destinationUVSet l))
        as [du|] eqn:Hd.
      * right; right. split; [exact Hsu|]. exists du. split; [reflexivity|].
        apply main_copy_resolved; assumption.
      * unfold resolved_uv in Hd.
        destruct (userDestinationUVSet a =? "") eqn:Hud.
        -- right; left. apply String.eqb_eq in Hud.
           destruct (destinationUVSet l) as [|y ys] eqn:Hdl;
             [|discriminate Hd].
           repeat split; auto.
           apply (main_copy_destination_missing a l su); assumption.
        -- left. apply String.eqb_neq in Hud.
           destruct (py_in (userDestinationUVSet a) (destinationUVSet l))
             eqn:Hid; [discriminate Hd|].
           apply py_in_not_In in Hid.
           split; [left; split; assumption|].
           destruct (main_copy_destination_unknown a l Hud Hid) as [H | H];
             [|exact H].
           (* the source warning is excluded: the source resolves *)
           exfalso. unfold resolved_uv in Hs.
           assert (Hsrc : main_copy a l <> warn_and_return sourceMessage).
           { apply String.eqb_neq in Hsu. apply String.eqb_neq in Hud.
             apply py_in_not_In in Hid.
             destruct (userSourceUVSet a =? "") eqn:Hus;
               destruct (py_in (userSourceUVSet a) (sourceUVSet l)) eqn:His;
               destruct (sourceUVSet l) as [|x xs] eqn:Hsl;
               destruct (destinationUVSet l) as [|y ys] eqn:Hdl;
               simpl in Hs; try discriminate;
               injection Hs as Hs; subst;
               main_copy_cases a l; rewrite ?Hsu; discriminate. }
           exact (Hsrc H).
  - left. split; [reflexivity|].
    unfold resolved_uv in Hs.
    destruct (userSourceUVSet a =? "") eqn:Hus.
    + apply String.eqb_eq in Hus.
      destruct (sourceUVSet l) as [|x xs] eqn:Hsl; [|discriminate Hs].
      apply main_copy_source_missing; assumption.
    + apply String.eqb_neq in Hus.
      destruct (py_in (userSourceUVSet a) (sourceUVSet l)) eqn:His;
        [discriminate Hs|].
      apply py_in_not_In in His.
      apply main_copy_source_unknown; assumption.
Qed.

Lemma main_bind_no_warning h a (w w0 : world h) t0 o msg :
  run h (main_bind a) w = (t0, w0, o) -> ~ In (Warning msg) t0.
Proof.
  intros Hb Hin.
  pose proof (issues_run (h:=h) _ _ w (issues_main_bind a)) as H.
  rewrite Hb in H. unfold trace_of in H; simpl in H.
  rewrite Forall_forall in H. specialize (H _ Hin). discriminate H.
Qed.


Lemma app_one_neq (t : list cmd) (c : cmd) (rest : list cmd) :
  t ++ c :: rest <> t.
Proof.
  intro E. apply (f_equal (@List.length cmd)) in E.
  rewrite length_app in E. simpl in E. lia.
Qed.



(** [main], lines 187-191: once the first part has fallen through, [main]
    ends in the [IndexError] of line 191, nothing more being issued, exactly
    when the source mesh contributes a UV set of non-empty name, no
    destination UV set is supplied and the destination mesh has none. *)
Theorem main_index_error_exactly h a (w w0 : world h) t0 l :
  run h (main_bind a) w = (t0, w0, Returned (Next l)) ->
  run h (main a) w = (t0, w0, Raised IndexError)
  <-> exists su,
        resolved_uv (userSourceUVSet a) (sourceUVSet l) = Some su
        /\ su <> ""
        /\ userDestinationUVSet a = ""
        /\ destinationUVSet l = [].
Proof.
  intro Hb. split.
  - intro Hrun.
    destruct (main_copy_decision a l)
      as [(_ & Hc) | (su & Hs & [(_ & Hc) | [(Hsu & Hu & Hd & _)
                                            | (_ & du & _ & Hc)]])].
    + rewrite (main_warns h a w w0 t0 l _ Hb Hc) in Hrun.
      apply (f_equal trace_of) in Hrun. rewrite stop_with_trace in Hrun.
      exfalso. exact (app_one_neq _ _ _ Hrun).
    + rewrite (main_warns h a w w0 t0 l _ Hb Hc) in Hrun.
      apply (f_equal trace_of) in Hrun. rewrite stop_with_trace in Hrun.
      exfalso. exact (app_one_neq _ _ _ Hrun).
    + exists su. auto.
    + rewrite (main_copies h a w w0 t0 l _ Hb Hc) in Hrun.
      apply (f_equal trace_of) in Hrun. unfold copy_then_select in Hrun.
      exfalso.
      destruct (exec h (CopySkinWeights
                          (copy_kwargs_of (sourceSkin l) (destinationSkin l)
                             (PStr su) (PStr du))) w0) as [w1 [e|u]];
        [|destruct (exec h (Select (selection l)) w1) as [w2 [e|u']]];
        exact (app_one_neq _ _ _ Hrun).
  - intros (su & Hs & Hsu & Hu & Hd).
    apply (main_raises h a w w0 t0 l IndexError Hb).
    apply (main_copy_destination_missing a l su); assumption.
Qed.

Lemma main_index_error_exactly_witness :
  exists t0 w0 l,
    run (Toy.toy Toy.uv_source_only) (main default_args) Toy.two_selected
    = (t0, w0, Raised IndexError)
    <-> exists su,
          resolved_uv (userSourceUVSet default_args) (sourceUVSet l)
          = Some su
          /\ su <> ""
          /\ userDestinationUVSet default_args = ""
          /\ destinationUVSet l = [].
Proof.
  eexists; eexists; eexists.
  eapply (main_index_error_exactly (Toy.toy Toy.uv_source_only)
            default_args Toy.two_selected).
  vm_compute; reflexivity.
Defined.

(** [main], lines 165-189: once the first part has fallen through, the
    source warning is issued exactly when the source mesh contributes no UV
    set (none on the mesh and none supplied, or a supplied one that the mesh
    does not have); the destination warning exactly when the source mesh
    contributes one and either the supplied destination UV set is not on the
    destination mesh or the chosen source name is empty (the test of line
    187); no other warning is issued. *)
Theorem main_warning_exactly h a (w w0 : world h) t0 l msg :
  run h (main_bind a) w = (t0, w0, Returned (Next l)) ->
  In (Warning msg) (trace_of (run h (main a) w))
  <-> (msg = sourceMessage
       /\ resolved_uv (userSourceUVSet a) (sourceUVSet l) = None)
      \/ (msg = destinationMessage
          /\ exists su,
               resolved_uv (userSourceUVSet a) (sourceUVSet l) = Some su
               /\ ((userDestinationUVSet a <> ""
                    /\ ~ In (userDestinationUVSet a) (destinationUVSet l))
                   \/ su = "")).
Proof.
  intro Hb.
  assert (Hwarn : forall m,
    main_copy a l = warn_and_return m ->
    In (Warning msg) (trace_of (run h (main a) w)) <-> msg = m).
  { intros m Hc. rewrite (main_warns h a w w0 t0 l _ Hb Hc), stop_with_trace.
    split.
    - intro Hin. apply in_app_or in Hin. destruct Hin as [Hin | [Hin | []]].
      + exfalso. exact (main_bind_no_warning _ _ _ _ _ _ _ Hb Hin).
      + injection Hin as <-. reflexivity.
    - intros ->. apply in_or_app; right; now left. }
  destruct (main_copy_decision a l)
    as [(Hs & Hc) | (su & Hs & [(Hcond & Hc) | [(Hsu & Hu & Hd & Hc)
                                             | (Hsu & du & Hd & Hc)]])].
  - rewrite (Hwarn _ Hc). split.
    + intros ->. left; auto.
    + intros [[-> _] | (_ & su & Hs' & _)]; [reflexivity | congruence].
  - rewrite (Hwarn _ Hc). split.
    + intros ->. right. split; [reflexivity|]. exists su; auto.
    + intros [[_ Hn] | (-> & _)]; [congruence | reflexivity].
  - split.
    + rewrite (main_raises h a w w0 t0 l _ Hb Hc).
      intro Hin. exfalso.
      exact (main_bind_no_warning _ _ _ _ _ _ _ Hb Hin).
    + intros [[_ Hn] | (_ & su' & Hs' & Hcond)]; [congruence|].
      exfalso. assert (su' = su) by congruence. subst su'.
      destruct Hcond as [[Hne _] | Hempty]; congruence.
  - split.
    + rewrite (main_copies h a w w0 t0 l _ Hb Hc).
      intro Hin. exfalso. unfold copy_then_select in Hin.
      destruct (exec h (CopySkinWeights
                          (copy_kwargs_of (sourceSkin l) (destinationSkin l)
                             (PStr su) (PStr du))) w0) as [w1 [e|u]];
        [|destruct (exec h (Select (selection l)) w1) as [w2 [e|u']]];
        unfold trace_of in Hin; simpl in Hin;
        apply in_app_or in Hin; destruct Hin as [Hin | Hin];
        try exact (main_bind_no_warning _ _ _ _ _ _ _ Hb Hin);
        simpl in Hin;
        repeat match type of Hin with
               | _ \/ _ => destruct Hin as [Hin | Hin]
               end;
        try contradiction; discriminate Hin.
    + intros [[_ Hn] | (_ & su' & Hs' & Hcond)]; [congruence|].
      exfalso. assert (su' = su) by congruence. subst su'.
      destruct Hcond as [[Hne Hnot] | Hempty]; [|congruence].
      unfold resolved_uv in Hd. apply String.eqb_neq in Hne.
      rewrite Hne in Hd. apply py_in_not_In in Hnot.
      rewrite Hnot in Hd. discriminate Hd.
Qed.

Lemma main_warning_exactly_witness :
  exists l,
    In (Warning sourceMessage)
      (trace_of (run (Toy.toy Toy.uv_destination_only) (main default_args)
                   Toy.two_selected))
    <-> (sourceMessage = sourceMessage
         /\ resolved_uv (userSourceUVSet default_args) (sourceUVSet l)
            = None)
        \/ (sourceMessage = destinationMessage
            /\ exists su,
                 resolved_uv (userSourceUVSet default_args) (sourceUVSet l)
                 = Some su
                 /\ ((userDestinationUVSet default_args <> ""
                      /\ ~ In (userDestinationUVSet default_args)
                             (destinationUVSet l))
                     \/ su = "")).
Proof.
  eexists.
  eapply (main_warning_exactly (Toy.toy Toy.uv_destination_only)
            default_args Toy.two_selected).
  vm_compute; reflexivity.
Defined.

(** [main], lines 157-163: what the copy works with is read after the bind
    has returned.  The skin clusters of the source and of the destination
    and their UV sets are the results of [getSkinCluster] and [getUVSet], in
    this order, starting in the host state the bind command left; the bind
    is the last scene-changing command before them. *)
Theorem main_reads_after_bind h a (w w0 : world h) t0 l :
  run h (main_bind a) w = (t0, w0, Returned (Next l)) ->
  exists before objs w4 w5 t5 w6 t6 w7 t7 w8 t8,
    t0 = before
         ++ SkinClusterBind objs (bind_kwargs_of a) :: t5 ++ t6 ++ t7 ++ t8
    /\ exec h (SkinClusterBind objs (bind_kwargs_of a)) w4 = (w5, inr tt)
    /\ run h (getSkinCluster (sourceObject l)) w5
       = (t5, w6, Returned (sourceSkin l))
    /\ run h (getSkinCluster (destinationObject l)) w6
       = (t6, w7, Returned (destinationSkin l))
    /\ run h (getUVSet (sourceObject l)) w7
       = (t7, w8, Returned (sourceUVSet l))
    /\ run h (getUVSet (destinationObject l)) w8
       = (t8, w0, Returned (destinationUVSet l))
    /\ filter is_edit (t5 ++ t6 ++ t7 ++ t8) = [].
Proof.
  intro Hb.
  destruct (main_bind_returns h a w w0 t0 l Hb)
    as (w1 & r & rest & _ & _ & _ & t1 & w2 & si & t2 & w3 & di & w4 & w5
        & t5 & w6 & t6 & w7 & t7 & w8 & t8
        & _ & _ & _ & Hbind & H5 & H6 & H7 & H8 & Ht0).
  exists (Ls :: t1 ++ t2
          ++ (if nonempty di
              then [SkinClusterUnbind (destinationObject l)] else [])),
    (destinationObject l :: si), w4, w5, t5, w6, t6, w7, t7, w8, t8.
  repeat split; auto.
  - rewrite Ht0. simpl. rewrite <- !app_assoc. reflexivity.
  - assert (Hq : forall t, Forall (fun c => is_query c = true) t ->
                           filter is_edit t = []).
    { intros t Ht. apply (filter_none is_query); [|exact Ht].
      intros c Hc; destruct c; cbv in Hc |- *; congruence. }
    pose proof (issues_run (h:=h) _ _ w5
                  (issues_getSkinCluster (sourceObject l))) as Q5.
    pose proof (issues_run (h:=h) _ _ w6
                  (issues_getSkinCluster (destinationObject l))) as Q6.
    pose proof (issues_run (h:=h) _ _ w7
                  (issues_getUVSet (sourceObject l))) as Q7.
    pose proof (issues_run (h:=h) _ _ w8
                  (issues_getUVSet (destinationObject l))) as Q8.
    rewrite H5 in Q5. rewrite H6 in Q6. rewrite H7 in Q7. rewrite H8 in Q8.
    unfold trace_of in *; simpl in *.
    rewrite !filter_app, (Hq t5 Q5), (Hq t6 Q6), (Hq t7 Q7), (Hq t8 Q8).
    reflexivity.
Qed.

Lemma main_reads_after_bind_witness :
  exists t0 w0 l before objs w4 w5 t5 w6 t6 w7 t7 w8 t8,
    t0 = before
         ++ SkinClusterBind objs (bind_kwargs_of default_args)
            :: t5 ++ t6 ++ t7 ++ t8
    /\ exec (Toy.toy Toy.uv_both)
         (SkinClusterBind objs (bind_kwargs_of default_args)) w4
       = (w5, inr tt)
    /\ run (Toy.toy Toy.uv_both) (getSkinCluster (sourceObject l)) w5
       = (t5, w6, Returned (sourceSkin l))
    /\ run (Toy.toy Toy.uv_both) (getSkinCluster (destinationObject l)) w6
       = (t6, w7, Returned (destinationSkin l))
    /\ run (Toy.toy Toy.uv_both) (getUVSet (sourceObject l)) w7
       = (t7, w8, Returned (sourceUVSet l))
    /\ run (Toy.toy Toy.uv_both) (getUVSet (destinationObject l)) w8
       = (t8, w0, Returned (destinationUVSet l))
    /\ filter is_edit (t5 ++ t6 ++ t7 ++ t8) = [].
Proof.
  eexists; eexists; eexists.
  eapply (main_reads_after_bind (Toy.toy Toy.uv_both) default_args
            Toy.two_selected).
  vm_compute; reflexivity.
Defined.

(** [main], lines 138-157, with [getInfluence]: [main] does not check that
    the source is bound.  When [getSkinCluster] finds no skin cluster for
    the first selected object, the bind command is issued all the same and
    receives the destination object alone, without any joint. *)
Theorem main_unbound_source h a (w w1 w2 w3 : world h)
  r so do rest t1 sc t2 di :
  exec h Ls w = (w1, inr r) ->
  or_empty r = so :: do :: rest ->
  so <> "" ->
  run h (getSkinCluster so) w1 = (t1, w2, Returned sc) ->
  truthy sc = false ->
  run h (getInfluence do) w2 = (t2, w3, Returned di) ->
  (di = [] \/ exists w4 u, exec h (SkinClusterUnbind do) w3 = (w4, inr u)) ->
  filter is_bind (trace_of (run h (main a) w))
  = [SkinClusterBind [do] (bind_kwargs_of a)].
Proof.
  intros H0 Hsel Hso Hsc Hfalse H2 H3.
  assert (H1 : run h (getInfluence so) w1 = (t1, w2, Returned [])).
  { unfold getInfluence. apply String.eqb_neq in Hso.
    cbn [truthy]. rewrite Hso. cbn [negb].
    rewrite (run_bind_returned _ _ _ _ _ _ Hsc), Hfalse. simpl.
    rewrite app_nil_r. reflexivity. }
  rewrite <- filter_bind_skin_edits.
  destruct (main_skin_edits h a w w1 w2 w3 r so do rest t1 t2 [] di
              H0 Hsel H1 H2) as [(Hd & (w4 & e & Hu) & _) | (_ & Hb)].
  - exfalso. destruct H3 as [-> | (w4' & u & Hu')]; [discriminate|].
    rewrite Hu in Hu'; discriminate.
  - rewrite Hb. destruct (nonempty di); reflexivity.
Qed.

Lemma main_unbound_source_witness :
  filter is_bind
    (trace_of (run (Toy.toy Toy.uv_both) (main default_args)
                 {| Toy.selected := ["|src"; "|dst"]; Toy.skins := [] |}))
  = [SkinClusterBind ["|dst"] (bind_kwargs_of default_args)].
Proof.
  apply (main_unbound_source (Toy.toy Toy.uv_both) default_args
           {| Toy.selected := ["|src"; "|dst"]; Toy.skins := [] |}
           {| Toy.selected := ["|src"; "|dst"]; Toy.skins := [] |}
           {| Toy.selected := ["|src"; "|dst"]; Toy.skins := [] |}
           {| Toy.selected := ["|src"; "|dst"]; Toy.skins := [] |}
           (Some ["|src"; "|dst"]) "|src" "|dst" []
           [NodeType "|src"; ListRelatives "|src";
            ListConnections "|srcShape"]
           PNone
           [NodeType "|dst"; ListRelatives "|dst";
            ListConnections "|dstShape"]
           []).
  - reflexivity.
  - reflexivity.
  - discriminate.
  - vm_compute; reflexivity.
  - reflexivity.
  - vm_compute; reflexivity.
  - now left.
Defined.

(** ** No state of its own *)

Lemma emits_bind {A B} (Q : cmd -> Prop) (R1 : A -> Prop) (R : B -> Prop)
  (p : prog A) (f : A -> prog B) :
  emits Q R1 p -> (forall x, R1 x -> emits Q R (f x)) ->
  emits Q R (bind p f).
Proof.
  intros Hp Hf; induction Hp; simpl; auto; constructor; auto.
Qed.

Lemma emits_run h {A} (Q : cmd -> Prop) (R : A -> Prop) (p : prog A)
  (w : world h) :
  emits Q R p -> Forall Q (trace_of (run h p w)).
Proof.
  intro Hp; revert w; induction Hp as [x Hx|e|c k Hc Hk IH]; intro w; simpl.
  - constructor.
  - constructor.
  - destruct (exec h c w) as [w1 [e|v]]; simpl.
    + repeat constructor; exact Hc.
    + specialize (IH v w1).
      destruct (run h (k v) w1) as [[t w2] o]; simpl in *.
      constructor; assumption.
Qed.

Lemma issues_emits {A} (P : cmd -> bool) (Q : cmd -> Prop) (p : prog A) :
  (forall c, P c = true -> Q c) -> issues P p -> emits Q (fun _ => True) p.
Proof. intros HPQ Hp; induction Hp; constructor; auto. Qed.

Lemma query_main_change a sel (c : cmd) :
  is_query c = true -> main_change a sel c.
Proof. destruct c; try discriminate; intros _; exact I. Qed.

(** The second part of [main] changes the scene through the weight copy and
    the select of the selection it was handed, and through nothing else. *)
Lemma emits_main_copy a l :
  emits (main_change a (selection l)) (fun _ => True) (main_copy a l).
Proof.
  destruct (main_copy_decision a l)
    as [[_ E] | (su & _ & [[_ E] | [(_ & _ & _ & E) | (_ & du & _ & E)]])];
    rewrite E;
    unfold warn_and_return, copy_and_select, bindf, lift, call, next,
      return_; simpl.
  - repeat constructor.
  - repeat constructor.
  - constructor.
  - constructor; [simpl; eauto|]. intros ?.
    constructor; [reflexivity|]. intros ?. repeat constructor.
Qed.

Lemma run_Call_returned h {A} (c : cmd) (k : resp c -> prog A)
  (w w1 : world h) v :
  exec h c w = (w1, inr v) ->
  trace_of (run h (Call c k) w) = c :: trace_of (run h (k v) w1).
Proof.
  intro H. simpl. rewrite H.
  destruct (run h (k v) w1) as [[t w2] o]; reflexivity.
Qed.

(** The commands of [main] after the selection query. *)
Lemma main_changes h a (w w1 : world h) r :
  exec h Ls w = (w1, inr r) ->
  Forall (main_change a (or_empty r)) (trace_of (run h (main a) w)).
Proof.
  intro H0. unfold main, body, bindf, main_bind. unfold call at 1.
  cbn [bind].
  match goal with
  | |- context [run h (Call Ls ?k) w] =>
      rewrite (run_Call_returned h Ls k w w1 r H0);
      assert (Hk : emits (main_change a (or_empty r)) (fun _ => True) (k r))
  end.
  2: { constructor; [exact I | exact (emits_run h _ _ _ w1 Hk)]. }
  cbn beta.
  apply (emits_bind _ (fun _ => True)); [|intros; constructor; exact I].
  apply (emits_bind _ (fun x => match x with
                                | Next l => selection l = or_empty r
                                | Return_ => True
                                end)).
  2: { intros [l|] Hl; [|constructor; exact I].
       rewrite <- Hl. apply emits_main_copy. }
  destruct (or_empty r) as [|so [|do rest]];
    cbn [List.length Nat.ltb Nat.leb index nth_error bind].
  - unfold call; cbn [bind].
    constructor; [exact I|]. intros ?; constructor; exact I.
  - unfold call; cbn [bind].
    constructor; [exact I|]. intros ?; constructor; exact I.
  - apply (emits_bind _ (fun _ => True)).
    { apply (issues_emits is_query); [apply query_main_change|].
      apply issues_getInfluence. }
    intros si _.
    apply (emits_bind _ (fun _ => True)).
    { apply (issues_emits is_query); [apply query_main_change|].
      apply issues_getInfluence. }
    intros di _.
    apply (emits_bind _ (fun _ => True)).
    { destruct (nonempty di).
      - constructor; [reflexivity|]. intros; constructor; exact I.
      - constructor; exact I. }
    intros _ _.
    apply (emits_bind _ (fun _ => True)).
    { constructor; [split; reflexivity|]. intros; constructor; exact I. }
    intros _ _.
    apply (emits_bind _ (fun _ => True)).
    { apply (issues_emits is_query); [apply query_main_change|].
      apply issues_getSkinCluster. }
    intros ss _.
    apply (emits_bind _ (fun _ => True)).
    { apply (issues_emits is_query); [apply query_main_change|].
      apply issues_getSkinCluster. }
    intros ds _.
    apply (emits_bind _ (fun _ => True)).
    { apply (issues_emits is_query); [apply query_main_change|].
      apply issues_getUVSet. }
    intros us _.
    apply (emits_bind _ (fun _ => True)).
    { apply (issues_emits is_query); [apply query_main_change|].
      apply issues_getUVSet. }
    intros ud _.
    constructor. reflexivity.
Qed.

(** A program of queries, run a second time on a host whose queries leave
    the scene alone, issues the same commands and returns the same value. *)
Lemma run_twice h {A} (p : prog A) (w w' : world h) t v :
  inert h is_query -> issues is_query p ->
  run h p w = (t, w', Returned v) ->
  run h (twice p) w = (t ++ t, w, Returned (v, v)).
Proof.
  intros Hq Hp Hr.
  pose proof (helper_world h p w Hq Hp) as Hw.
  rewrite Hr in Hw; unfold world_of in Hw; simpl in Hw; subst w'.
  unfold twice.
  rewrite (run_bind_returned _ _ _ _ _ _ Hr).
  rewrite (run_bind_returned _ _ _ _ _ _ Hr).
  simpl. rewrite app_nil_r. reflexivity.
Qed.

(** C7: the script has no state of its own; the only state is the host's.
    - The three helper functions issue scene queries only; on a host whose
      queries leave the scene alone a helper leaves it alone, and the same
      call made again issues the same commands and returns the same value:
      nothing is kept from the first call.
    - When the selection query raises, [main] ends there.  When it answers,
      every command of [main] that is not a query or a message is the
      unbind of the second selected object, the bind of that object with
      the keyword arguments of the call, a weight copy, or the select of the
      answered selection; these commands come in this order, each at most
      once; and, when queries and messages leave the scene alone, the scene
      after the run is the one these commands leave.
    - Of two calls of [main] in a row, the second is a run of [main] from
      the host state the first call left, and its scene-changing commands
      are those of its own arguments and of the selection the host answers
      at its own entry: the host state is all that passes from one call to
      the next. *)
Theorem no_state_of_its_own h :
  (forall name (w : world h),
      Forall (fun c => is_query c = true)
        (trace_of (run h (getSkinCluster name) w))
      /\ Forall (fun c => is_query c = true)
           (trace_of (run h (getInfluence name) w))
      /\ Forall (fun c => is_query c = true)
           (trace_of (run h (getUVSet name) w)))
  /\ (inert h is_query ->
      forall name (w : world h),
        world_of (run h (getSkinCluster name) w) = w
        /\ world_of (run h (getInfluence name) w) = w
        /\ world_of (run h (getUVSet name) w) = w)
  /\ (inert h is_query ->
      forall name (w w' : world h) t,
        (forall v,
            run h (getSkinCluster name) w = (t, w', Returned v) ->
            run h (twice (getSkinCluster name)) w
            = (t ++ t, w, Returned (v, v)))
        /\ (forall v,
               run h (getInfluence name) w = (t, w', Returned v) ->
               run h (twice (getInfluence name)) w
               = (t ++ t, w, Returned (v, v)))
        /\ (forall v,
               run h (getUVSet name) w = (t, w', Returned v) ->
               run h (twice (getUVSet name)) w
               = (t ++ t, w, Returned (v, v))))
  /\ (forall a (w w1 : world h) e,
        exec h Ls w = (w1, inl e) ->
        run h (main a) w = ([Ls], w1, Raised e))
  /\ (forall a (w w1 : world h) r,
        exec h Ls w = (w1, inr r) ->
        Forall (main_change a (or_empty r)) (trace_of (run h (main a) w)))
  /\ (forall a (w : world h),
        StronglySorted lt
          (map edit_rank (filter is_edit (trace_of (run h (main a) w)))))
  /\ (inert h is_query -> inert h is_message ->
      forall a (w : world h),
        world_of (run h (main a) w)
        = replay h (filter is_edit (trace_of (run h (main a) w))) w)
  /\ (forall a1 a2 (w w1 : world h) t1,
        run h (main a1) w = (t1, w1, Returned tt) ->
        run h (main a1 ;; main a2) w
        = (let '(t2, w2, o) := run h (main a2) w1 in (t1 ++ t2, w2, o))
        /\ forall (w2 : world h) r,
             exec h Ls w1 = (w2, inr r) ->
             Forall (main_change a2 (or_empty r))
               (trace_of (run h (main a2) w1))).
Proof.
  split; [|split; [|split; [|split; [|split; [|split; [|split]]]]]].
  - intros name w. repeat split; apply issues_run;
      [apply issues_getSkinCluster | apply issues_getInfluence
      | apply issues_getUVSet].
  - intros Hq name w. repeat split; apply helper_world; auto;
      [apply issues_getSkinCluster | apply issues_getInfluence
      | apply issues_getUVSet].
  - intros Hq name w w' t. repeat split; intros v Hr;
      apply (run_twice h _ w w' t v Hq); auto;
      [apply issues_getSkinCluster | apply issues_getInfluence
      | apply issues_getUVSet].
  - intros a w w1 e H0. unfold main, body, bindf, main_bind.
    unfold call at 1. cbn [bind run]. rewrite H0. reflexivity.
  - intros a w w1 r H0. exact (main_changes h a w w1 r H0).
  - intros a w.
    destruct (obeys_run h _ Entry (main a) w (obeys_main a)) as (s & Hf & _).
    exact (proj1 (follow_edits _ _ _ Hf)).
  - intros Hq Hm a w. rewrite run_replay.
    rewrite (replay_filter (fun c => is_query c || is_message c)).
    + f_equal. apply filter_ext. intro c. apply edit_or_not.
    + intros c w0 Hc. apply orb_true_iff in Hc.
      destruct Hc as [Hc | Hc]; [apply Hq | apply Hm]; exact Hc.
  - intros a1 a2 w w1 t1 H1. split.
    + rewrite (run_bind_returned _ _ _ _ _ _ H1).
      destruct (run h (main a2) w1) as [[t2 w2] o]; reflexivity.
    + intros w2 r H0. exact (main_changes h a2 w1 w2 r H0).
Qed.

(** On the small host, the destination being bound already: the influence
    query twice in a row, and a run of [main] with its four scene-changing
    commands, which alone make the scene it leaves; then a call of [main]
    with its default arguments after a call with other arguments. *)
Lemma no_state_of_its_own_witness :
  world_of (run (Toy.toy Toy.uv_both) (getInfluence "|src") Toy.rebind)
  = Toy.rebind
  /\ run (Toy.toy Toy.uv_both) (twice (getInfluence "|src")) Toy.rebind
     = ([NodeType "|src"; ListRelatives "|src"; ListConnections "|srcShape";
         SkinClusterQuery (PStr "|srcSkin")]
        ++ [NodeType "|src"; ListRelatives "|src";
            ListConnections "|srcShape"; SkinClusterQuery (PStr "|srcSkin")],
        Toy.rebind,
        Returned (["joint1"; "joint2"], ["joint1"; "joint2"]))
  /\ Forall (main_change default_args ["|src"; "|dst"])
       (trace_of (run (Toy.toy Toy.uv_both) (main default_args) Toy.rebind))
  /\ world_of (run (Toy.toy Toy.uv_both) (main default_args) Toy.rebind)
     = replay (Toy.toy Toy.uv_both)
         [SkinClusterUnbind "|dst";
          SkinClusterBind ["|dst"; "joint1"; "joint2"]
            (bind_kwargs_of default_args);
          CopySkinWeights
            (copy_kwargs_of (PStr "|srcSkin") (PStr "|dstSkin")
               (PStr "map1") (PStr "map1"));
          Select ["|src"; "|dst"]]
         Toy.rebind
  /\ Forall (main_change default_args ["|src"; "|dst"])
       (trace_of
          (run (Toy.toy Toy.uv_both) (main default_args)
             (world_of (run (Toy.toy Toy.uv_both)
                          (main (mkArgs 2%float 3%Z "" ""))
                          Toy.two_selected)))).
Proof.
  destruct (no_state_of_its_own (Toy.toy Toy.uv_both))
    as (_ & Hhelpers & Htwice & _ & Hchanges & _ & Hmain & Hcalls).
  split; [|split; [|split; [|split]]].
  - apply (Hhelpers (toy_inert_query Toy.uv_both)).
  - apply (Htwice (toy_inert_query Toy.uv_both) "|src" Toy.rebind Toy.rebind).
    vm_compute; reflexivity.
  - apply (Hchanges default_args Toy.rebind Toy.rebind
             (Some ["|src"; "|dst"])).
    reflexivity.
  - etransitivity.
    + apply (Hmain (toy_inert_query Toy.uv_both)
               (toy_inert_message Toy.uv_both)).
    + vm_compute; reflexivity.
  - set (w1 := world_of (run (Toy.toy Toy.uv_both)
                           (main (mkArgs 2%float 3%Z "" ""))
                           Toy.two_selected)).
    apply (proj2
             (Hcalls (mkArgs 2%float 3%Z "" "") default_args Toy.two_selected
                w1
                (trace_of (run (Toy.toy Toy.uv_both)
                             (main (mkArgs 2%float 3%Z "" ""))
                             Toy.two_selected))
                ltac:(vm_compute; reflexivity))
             w1 (Some ["|src"; "|dst"])).
    vm_compute; reflexivity.
Defined.
